(** * RedHoleEngine: the macOS native launchers

    A shallow embedding of [RedHoleEngine/Launcher/macos_launcher.c] and
    [RedHoleGame/Launcher/macos_launcher.c].  Both programs locate their own
    executable, derive a handful of paths from it, adjust three environment
    variables and replace the process image with [dotnet <module> args...].

    C strings are modelled as [string] (a sequence of bytes without the
    terminating NUL), the process environment as a finite map from names to
    values, and everything the program asks the operating system as a field
    of a [Platform] record. *)

From Stdlib Require Import String Ascii ZArith Lia.
From stdpp Require Import gmap strings list.

Local Open Scope Z_scope.
Local Open Scope nat_scope.

(** ** The C library, as far as the launchers use it *)

Module LibC.

(** The first [n] bytes of [s] (all of [s] when it is shorter). *)
Fixpoint str_take (n : nat) (s : string) : string :=
  match n, s with
  | S n', String c s' => String c (str_take n' s')
  | _, _ => EmptyString
  end.

(** [snprintf(buf, size, fmt, ...)]: [formatted] is the expansion of the
    format; at most [size - 1] bytes of it are stored, then a NUL.  The
    result is the C string left in [buf]. *)
Definition snprintf (size : nat) (formatted : string) : string :=
  str_take (size - 1) formatted.

(** [strncpy(dst, src, n); dst[n] = '\0';]: the C string left in [dst]. *)
Definition strncpy (src : string) (n : nat) : string :=
  str_take n src.

(** Bytes a C string occupies in memory: its length and the NUL. *)
Definition c_size (s : string) : nat := S (String.length s).

(** [strstr(haystack, needle)]: offset of the first occurrence of
    [needle], [None] for the NULL result. *)
Fixpoint strstr (haystack needle : string) : option nat :=
  if String.prefix needle haystack then Some 0
  else match haystack with
       | EmptyString => None
       | String _ rest => S <$> strstr rest needle
       end.

(** [dirname(3)] and [basename(3)] of macOS: the argument is left
    untouched and each function answers from storage of its own, so the
    two results are independent values.  Both work from the end of the
    path, which is why the helpers take the reversed byte list. *)
Definition is_slash (c : ascii) : bool := Ascii.eqb c "/"%char.

Fixpoint strip_slashes (r : list ascii) : list ascii :=
  match r with
  | c :: r' => if is_slash c then strip_slashes r' else r
  | [] => []
  end.

Fixpoint last_component (r : list ascii) : list ascii :=
  match r with
  | c :: r' => if is_slash c then [] else c :: last_component r'
  | [] => []
  end.

Fixpoint before_last_component (r : list ascii) : list ascii :=
  match r with
  | c :: r' => if is_slash c then r else before_last_component r'
  | [] => []
  end.

Definition basename (path : string) : string :=
  match path with
  | EmptyString => "."
  | _ =>
    match strip_slashes (rev (list_ascii_of_string path)) with
    | [] => "/"
    | r => string_of_list_ascii (rev (last_component r))
    end
  end.

Definition dirname (path : string) : string :=
  match path with
  | EmptyString => "."
  | _ =>
    let r := strip_slashes (rev (list_ascii_of_string path)) in
    match before_last_component r with
    | [] => match r with [] => "/" | _ => "." end
    | d => match strip_slashes d with
           | [] => "/"
           | d' => string_of_list_ascii (rev d')
           end
    end
  end.

End LibC.

Import LibC.

Arguments snprintf : simpl never.
Arguments strncpy : simpl never.
Arguments dirname : simpl never.
Arguments basename : simpl never.

(** ** The process and its operating system *)

(** The environment block: [getenv] and [setenv(name, value, 1)]. *)
Abbreviation Env := (gmap string string).

Definition getenv (env : Env) (name : string) : option string := env !! name.

Definition setenv (name value : string) (env : Env) : Env :=
  <[name := value]> env.

(** One cell of a [char **] array obtained from [malloc]. *)
Inductive slot : Type :=
| Uninit
| Null
| Ptr (s : string).

(** The strings of an argument vector, up to its terminator. *)
Fixpoint c_vector (a : list slot) : list string :=
  match a with
  | Ptr s :: a' => s :: c_vector a'
  | _ => []
  end.

(** The arguments of one [execvp] call, with the environment it inherits. *)
Record exec_call : Type := ExecCall {
  exec_file : string;
  exec_argv : list slot;
  exec_env : Env
}.

(** What the program asks of macOS.  [_NSGetExecutablePath] answers with its
    return code and the path it stored; [realpath] with [None] for NULL;
    [access_F_OK] with the return code of [access(path, F_OK)]; [execvp]
    with [true] when the image was replaced and [false] when the call
    came back. *)
Record Platform : Type := {
  _NSGetExecutablePath : nat → Z * string;
  realpath : string → option string;
  access_F_OK : string → Z;
  execvp : exec_call → bool
}.

(** How a run of [main] ends: the process image is replaced, or [main]
    returns a status after writing lines to the standard error stream;
    [attempted] is the [execvp] call that came back, if one was made. *)
Inductive outcome : Type :=
| Replaced (call : exec_call)
| Returned (status : Z) (stderr : list string) (attempted : option exec_call).

Definition exec_of (o : outcome) : option exec_call :=
  match o with
  | Replaced c => Some c
  | Returned _ _ a => a
  end.

(** A run with the allocator taken into account.  The source stores
    through the result of [malloc] without testing it, so a NULL answer
    ends the process in a fault at that store: nothing has been written to
    the standard error stream and [main] returns no status.  Otherwise the
    run ends as an [outcome] says. *)
Inductive run : Type :=
| Finished (o : outcome)
| Faulted.

Definition exit_status (r : run) : option Z :=
  match r with
  | Finished (Returned status _ _) => Some status
  | _ => None
  end.

Definition diagnostics (r : run) : list string :=
  match r with
  | Finished (Returned _ err _) => err
  | _ => []
  end.

(** The directory and the [char] buffers that [main] fills from it. *)
Record paths : Type := Paths {
  dir : string;
  exe_name : string;
  dll_name : string;
  dll_path : string;
  icd_path : string;
  dyld_path : string;
  native_path : string
}.

Definition newline : string := String "010"%char EmptyString.

(** ** RedHoleEngine/Launcher/macos_launcher.c *)

Module RedHoleEngine.

Definition MAX_PATH : nat := 4096.

Definition file_exists (P : Platform) (path : string) : bool :=
  (access_F_OK P path =? 0)%Z.

(** Lines 41-61: directory, managed DLL name and the derived paths. *)
Definition build_paths (real_path : string) : paths :=
  let dir := dirname real_path in
  let exe_name := strncpy (basename real_path) (MAX_PATH - 1) in
  let dll_name := snprintf MAX_PATH (exe_name +:+ ".dll") in
  {| dir := dir;
     exe_name := exe_name;
     dll_name := dll_name;
     dll_path := snprintf MAX_PATH (dir +:+ "/" +:+ dll_name);
     icd_path :=
       snprintf MAX_PATH (dir +:+ "/runtimes/osx/native/MoltenVK_icd.json");
     dyld_path := snprintf MAX_PATH dir;
     native_path := snprintf MAX_PATH (dir +:+ "/runtimes/osx/native") |}.

(** Lines 63-74: prepend the two directories to DYLD_LIBRARY_PATH. *)
Definition set_library_path (p : paths) (env : Env) : Env :=
  let existing_dyld := getenv env "DYLD_LIBRARY_PATH" in
  match existing_dyld with
  | Some existing =>
    if 0 <? String.length existing then
      let new_dyld :=
        snprintf (MAX_PATH * 2)
          (dyld_path p +:+ ":" +:+ native_path p +:+ ":" +:+ existing) in
      setenv "DYLD_LIBRARY_PATH" new_dyld env
    else
      let new_dyld :=
        snprintf (MAX_PATH * 2) (dyld_path p +:+ ":" +:+ native_path p) in
      setenv "DYLD_LIBRARY_PATH" new_dyld env
  | None =>
    let new_dyld :=
      snprintf (MAX_PATH * 2) (dyld_path p +:+ ":" +:+ native_path p) in
    setenv "DYLD_LIBRARY_PATH" new_dyld env
  end.

(** Lines 76-84: add the Homebrew Vulkan loader directory if present. *)
Definition add_homebrew_loader (P : Platform) (env : Env) : Env :=
  if file_exists P "/opt/homebrew/lib/libvulkan.dylib" then
    match getenv env "DYLD_LIBRARY_PATH" with
    | Some dyld =>
      match strstr dyld "/opt/homebrew/lib" with
      | None =>
        let new_dyld :=
          snprintf (MAX_PATH * 2) (dyld +:+ ":/opt/homebrew/lib") in
        setenv "DYLD_LIBRARY_PATH" new_dyld env
      | Some _ => env
      end
    | None => env
    end
  else env.

(** Lines 86-97: the driver manifest, bundled or from a system prefix. *)
Definition choose_icd (P : Platform) (icd_path : string) : string :=
  if negb (file_exists P icd_path) then
    let brew_icd := "/opt/homebrew/share/vulkan/icd.d/MoltenVK_icd.json" in
    let local_icd := "/usr/local/share/vulkan/icd.d/MoltenVK_icd.json" in
    if file_exists P brew_icd then strncpy brew_icd (MAX_PATH - 1)
    else if file_exists P local_icd then strncpy local_icd (MAX_PATH - 1)
    else icd_path
  else icd_path.

(** Lines 98-99. *)
Definition set_icd_variables (icd_path : string) (env : Env) : Env :=
  setenv "VK_DRIVER_FILES" icd_path (setenv "VK_ICD_FILENAMES" icd_path env).

(** Lines 101-110: the argument vector for dotnet, in the array that a
    successful [malloc] returned. *)
Definition build_argv (dll_path : string) (argv : list string) : list slot :=
  let argc := length argv in
  let new_argv := replicate (argc + 3) Uninit in
  let new_argv := <[0 := Ptr "dotnet"]> new_argv in
  let new_argv := <[1 := Ptr dll_path]> new_argv in
  let new_argv :=
    foldl (λ a i, <[i + 1 := from_option Ptr Uninit (argv !! i)]> a)
          new_argv (seq 1 (argc - 1)) in
  <[argc + 1 := Null]> new_argv.

Definition main (P : Platform) (argv : list string) (env : Env) : outcome :=
  let '(rc, exe_path) := _NSGetExecutablePath P MAX_PATH in
  if negb (rc =? 0)%Z then
    Returned 1 ["Error: Could not get executable path" +:+ newline] None
  else
    match realpath P exe_path with
    | None => Returned 1 ["Error: Could not resolve path" +:+ newline] None
    | Some real_path =>
      let p := build_paths real_path in
      let env := set_library_path p env in
      let env := add_homebrew_loader P env in
      let icd_path := choose_icd P (icd_path p) in
      let env := set_icd_variables icd_path env in
      let new_argv := build_argv (dll_path p) argv in
      let call := ExecCall "dotnet" new_argv env in
      if execvp P call then Replaced call
      else
        Returned 1 ["Error: Could not execute dotnet" +:+ newline]
                 (Some call)
    end.

(** [main] with the answer of [malloc] as an input ([true] for a non-NULL
    result): lines 102-103 store [new_argv[0]] without a NULL test.
    [main] above is this function under a successful allocation. *)
Definition main_alloc
    (malloc : nat → bool) (P : Platform) (argv : list string) (env : Env)
    : run :=
  let argc := length argv in
  let '(rc, exe_path) := _NSGetExecutablePath P MAX_PATH in
  if negb (rc =? 0)%Z then
    Finished
      (Returned 1 ["Error: Could not get executable path" +:+ newline] None)
  else
    match realpath P exe_path with
    | None =>
      Finished (Returned 1 ["Error: Could not resolve path" +:+ newline] None)
    | Some real_path =>
      let p := build_paths real_path in
      let env := set_library_path p env in
      let env := add_homebrew_loader P env in
      let icd_path := choose_icd P (icd_path p) in
      let env := set_icd_variables icd_path env in
      if malloc ((argc + 3) * 8) then
        let new_argv := build_argv (dll_path p) argv in
        let call := ExecCall "dotnet" new_argv env in
        if execvp P call then Finished (Replaced call)
        else
          Finished
            (Returned 1 ["Error: Could not execute dotnet" +:+ newline]
                      (Some call))
      else Faulted
    end.

End RedHoleEngine.

(** ** RedHoleGame/Launcher/macos_launcher.c *)

Module RedHoleGame.

Definition MAX_PATH : nat := 4096.

Definition file_exists (P : Platform) (path : string) : bool :=
  (access_F_OK P path =? 0)%Z.

(** Lines 33-50. *)
Definition build_paths (real_path : string) : paths :=
  let dir := dirname real_path in
  let exe_name := strncpy (basename real_path) (MAX_PATH - 1) in
  let dll_name := snprintf MAX_PATH (exe_name +:+ ".dll") in
  {| dir := dir;
     exe_name := exe_name;
     dll_name := dll_name;
     dll_path := snprintf MAX_PATH (dir +:+ "/" +:+ dll_name);
     icd_path :=
       snprintf MAX_PATH (dir +:+ "/runtimes/osx/native/MoltenVK_icd.json");
     dyld_path := snprintf MAX_PATH dir;
     native_path := snprintf MAX_PATH (dir +:+ "/runtimes/osx/native") |}.

(** Lines 52-61. *)
Definition set_library_path (p : paths) (env : Env) : Env :=
  let existing_dyld := getenv env "DYLD_LIBRARY_PATH" in
  match existing_dyld with
  | Some existing =>
    if 0 <? String.length existing then
      let new_dyld :=
        snprintf (MAX_PATH * 2)
          (dyld_path p +:+ ":" +:+ native_path p +:+ ":" +:+ existing) in
      setenv "DYLD_LIBRARY_PATH" new_dyld env
    else
      let new_dyld :=
        snprintf (MAX_PATH * 2) (dyld_path p +:+ ":" +:+ native_path p) in
      setenv "DYLD_LIBRARY_PATH" new_dyld env
  | None =>
    let new_dyld :=
      snprintf (MAX_PATH * 2) (dyld_path p +:+ ":" +:+ native_path p) in
    setenv "DYLD_LIBRARY_PATH" new_dyld env
  end.

(** Lines 63-70. *)
Definition add_homebrew_loader (P : Platform) (env : Env) : Env :=
  if file_exists P "/opt/homebrew/lib/libvulkan.dylib" then
    match getenv env "DYLD_LIBRARY_PATH" with
    | Some dyld =>
      match strstr dyld "/opt/homebrew/lib" with
      | None =>
        let new_dyld :=
          snprintf (MAX_PATH * 2) (dyld +:+ ":/opt/homebrew/lib") in
        setenv "DYLD_LIBRARY_PATH" new_dyld env
      | Some _ => env
      end
    | None => env
    end
  else env.

(** Lines 72-82. *)
Definition choose_icd (P : Platform) (icd_path : string) : string :=
  if negb (file_exists P icd_path) then
    let brew_icd := "/opt/homebrew/share/vulkan/icd.d/MoltenVK_icd.json" in
    let local_icd := "/usr/local/share/vulkan/icd.d/MoltenVK_icd.json" in
    if file_exists P brew_icd then strncpy brew_icd (MAX_PATH - 1)
    else if file_exists P local_icd then strncpy local_icd (MAX_PATH - 1)
    else icd_path
  else icd_path.

(** Lines 83-84. *)
Definition set_icd_variables (icd_path : string) (env : Env) : Env :=
  setenv "VK_DRIVER_FILES" icd_path (setenv "VK_ICD_FILENAMES" icd_path env).

(** Lines 86-93, in the array that a successful [malloc] returned. *)
Definition build_argv (dll_path : string) (argv : list string) : list slot :=
  let argc := length argv in
  let new_argv := replicate (argc + 3) Uninit in
  let new_argv := <[0 := Ptr "dotnet"]> new_argv in
  let new_argv := <[1 := Ptr dll_path]> new_argv in
  let new_argv :=
    foldl (λ a i, <[i + 1 := from_option Ptr Uninit (argv !! i)]> a)
          new_argv (seq 1 (argc - 1)) in
  <[argc + 1 := Null]> new_argv.

Definition main (P : Platform) (argv : list string) (env : Env) : outcome :=
  let '(rc, exe_path) := _NSGetExecutablePath P MAX_PATH in
  if negb (rc =? 0)%Z then
    Returned 1 ["Error: Could not get executable path" +:+ newline] None
  else
    match realpath P exe_path with
    | None => Returned 1 ["Error: Could not resolve path" +:+ newline] None
    | Some real_path =>
      let p := build_paths real_path in
      let env := set_library_path p env in
      let env := add_homebrew_loader P env in
      let icd_path := choose_icd P (icd_path p) in
      let env := set_icd_variables icd_path env in
      let new_argv := build_argv (dll_path p) argv in
      let call := ExecCall "dotnet" new_argv env in
      if execvp P call then Replaced call
      else
        Returned 1 ["Error: Could not execute dotnet" +:+ newline]
                 (Some call)
    end.

(** [main] with the answer of [malloc] as an input ([true] for a non-NULL
    result): lines 86-87 store [new_argv[0]] without a NULL test.
    [main] above is this function under a successful allocation. *)
Definition main_alloc
    (malloc : nat → bool) (P : Platform) (argv : list string) (env : Env)
    : run :=
  let argc := length argv in
  let '(rc, exe_path) := _NSGetExecutablePath P MAX_PATH in
  if negb (rc =? 0)%Z then
    Finished
      (Returned 1 ["Error: Could not get executable path" +:+ newline] None)
  else
    match realpath P exe_path with
    | None =>
      Finished (Returned 1 ["Error: Could not resolve path" +:+ newline] None)
    | Some real_path =>
      let p := build_paths real_path in
      let env := set_library_path p env in
      let env := add_homebrew_loader P env in
      let icd_path := choose_icd P (icd_path p) in
      let env := set_icd_variables icd_path env in
      if malloc ((argc + 3) * 8) then
        let new_argv := build_argv (dll_path p) argv in
        let call := ExecCall "dotnet" new_argv env in
        if execvp P call then Finished (Replaced call)
        else
          Finished
            (Returned 1 ["Error: Could not execute dotnet" +:+ newline]
                      (Some call))
      else Faulted
    end.

End RedHoleGame.

(** ** The two launchers side by side *)

(** The two programs are embedded separately; [variant] names one of
    them, and the definitions below pick its [main], its [MAX_PATH] and
    the blocks of its [main]. *)
Inductive variant : Type := Engine | Game.

Definition launcher (v : variant) : Platform → list string → Env → outcome :=
  match v with
  | Engine => RedHoleEngine.main
  | Game => RedHoleGame.main
  end.

Definition launcher_alloc (v : variant)
    : (nat → bool) → Platform → list string → Env → run :=
  match v with
  | Engine => RedHoleEngine.main_alloc
  | Game => RedHoleGame.main_alloc
  end.

Definition buffer_size (v : variant) : nat :=
  match v with
  | Engine => RedHoleEngine.MAX_PATH
  | Game => RedHoleGame.MAX_PATH
  end.

Definition derived_paths (v : variant) : string → paths :=
  match v with
  | Engine => RedHoleEngine.build_paths
  | Game => RedHoleGame.build_paths
  end.

Definition library_path_step (v : variant) : paths → Env → Env :=
  match v with
  | Engine => RedHoleEngine.set_library_path
  | Game => RedHoleGame.set_library_path
  end.

Definition homebrew_step (v : variant) : Platform → Env → Env :=
  match v with
  | Engine => RedHoleEngine.add_homebrew_loader
  | Game => RedHoleGame.add_homebrew_loader
  end.

Definition manifest_choice (v : variant) : Platform → string → string :=
  match v with
  | Engine => RedHoleEngine.choose_icd
  | Game => RedHoleGame.choose_icd
  end.

Definition argument_vector (v : variant) : string → list string → list slot :=
  match v with
  | Engine => RedHoleEngine.build_argv
  | Game => RedHoleGame.build_argv
  end.

Definition manifest_step (v : variant) : string → Env → Env :=
  match v with
  | Engine => RedHoleEngine.set_icd_variables
  | Game => RedHoleGame.set_icd_variables
  end.

Definition present (v : variant) : Platform → string → bool :=
  match v with
  | Engine => RedHoleEngine.file_exists
  | Game => RedHoleGame.file_exists
  end.

(** ** Vocabulary for the statements *)

(** The symlink-resolved path of the running executable, when both
    [_NSGetExecutablePath] and [realpath] succeed. *)
Definition resolved (v : variant) (P : Platform) : option string :=
  let '(rc, exe_path) := _NSGetExecutablePath P (buffer_size v) in
  if (rc =? 0)%Z then realpath P exe_path else None.

(** The environment after the three configuration blocks, and the
    [execvp] call built from it, for an executable resolved to [real]. *)
Definition configured
    (v : variant) (P : Platform) (real : string) (env : Env) : Env :=
  let p := derived_paths v real in
  manifest_step v (manifest_choice v P (icd_path p))
    (homebrew_step v P (library_path_step v p env)).

Definition request
    (v : variant) (P : Platform) (real : string)
    (argv : list string) (env : Env) : exec_call :=
  ExecCall "dotnet"
    (argument_vector v (dll_path (derived_paths v real)) argv)
    (configured v P real env).

(** The value of [name] in the environment handed to [execvp]. *)
Definition inherited (o : outcome) (name : string) : option string :=
  c ← exec_of o; getenv (exec_env c) name.

(** A C string and its NUL fit a buffer of [size] bytes. *)
Definition fits (size : nat) (s : string) : Prop := String.length s < size.

(** [PATH_MAX] of macOS ([<sys/syslimits.h>]): [realpath] fails with
    ENAMETOOLONG rather than return a path that does not fit it, so every
    resolved path is shorter. *)
Definition PATH_MAX : nat := 1024.

(** The value lines 63-74 (Engine) and 52-61 (Game) format into
    [new_dyld], before [snprintf] cuts it to the buffer. *)
Definition search_path (p : paths) (existing : option string) : string :=
  match existing with
  | Some V =>
    if 0 <? String.length V
    then dyld_path p +:+ ":" +:+ native_path p +:+ ":" +:+ V
    else dyld_path p +:+ ":" +:+ native_path p
  | None => dyld_path p +:+ ":" +:+ native_path p
  end.

(** A file name is non-empty and has no slash; a directory path, as
    [realpath] gives it, is the root or does not end in a slash. *)
Definition file_name (N : string) : Prop :=
  N ≠ EmptyString ∧ Forall (λ c, is_slash c = false) (list_ascii_of_string N).

Definition directory_path (D : string) : Prop :=
  D = "/" ∨
  ∃ c, last (list_ascii_of_string D) = Some c ∧ is_slash c = false.

Definition entry_path (D N : string) : string :=
  if String.eqb D "/" then "/" +:+ N else D +:+ "/" +:+ N.

(** [cut_to size formatted value]: [value] is what a bounded write of
    [formatted] leaves in a buffer of [size] bytes.  It fits the buffer
    with its NUL, is a prefix of [formatted], is all of it when that fits,
    and is its first [size - 1] bytes otherwise. *)
Definition cut_to (size : nat) (formatted value : string) : Prop :=
  c_size value ≤ size ∧
  String.prefix value formatted = true ∧
  (String.length formatted < size → value = formatted) ∧
  (size ≤ String.length formatted → String.length value = size - 1).

(** ** A concrete machine for the examples *)

(** The executable is [/Apps/Foo/Foo], started through the symlink
    [/usr/local/bin/foo]; [files] lists what exists on disk and [ok] says
    whether dotnet can be started. *)
Definition demo (files : list string) (ok : bool) : Platform :=
  {| _NSGetExecutablePath := λ _, (0%Z, "/usr/local/bin/foo");
     realpath := λ p,
       if String.eqb p "/usr/local/bin/foo" then Some "/Apps/Foo/Foo" else None;
     access_F_OK := λ p, if existsb (String.eqb p) files then 0%Z else (-1)%Z;
     execvp := λ _, ok |}.

(** A prior value as long as the whole [new_dyld] buffer. *)
Definition long_value : string :=
  string_of_list_ascii (replicate (RedHoleEngine.MAX_PATH * 2) "x"%char).

(** ** The model at work *)

Example dirname_app : dirname "/Apps/Foo/Foo" = "/Apps/Foo".
Proof. reflexivity. Qed.
Example basename_app : basename "/Apps/Foo/Foo" = "Foo".
Proof. reflexivity. Qed.
Example dirname_root : dirname "/Foo" = "/".
Proof. reflexivity. Qed.
Example dirname_rel : dirname "Foo" = ".".
Proof. reflexivity. Qed.
Example dirname_trailing : dirname "/a//b//" = "/a".
Proof. reflexivity. Qed.
Example basename_trailing : basename "/a//b//" = "b".
Proof. reflexivity. Qed.
Example basename_slashes : basename "///" = "/".
Proof. reflexivity. Qed.
Example strstr_hit : strstr "/a:/opt/homebrew/lib:/b" "/opt/homebrew/lib" = Some 3.
Proof. reflexivity. Qed.
Example strstr_miss : strstr "/a:/opt/homebrew" "/opt/homebrew/lib" = None.
Proof. reflexivity. Qed.
Example snprintf_cut : snprintf 4 "abcdef" = "abc".
Proof. reflexivity. Qed.

Example scenario_spec_8 :
  launcher Engine (demo [] true) ["foo"; "a"; "b"] ∅ =
  Replaced
    (ExecCall "dotnet"
       [Ptr "dotnet"; Ptr "/Apps/Foo/Foo.dll"; Ptr "a"; Ptr "b"; Null; Uninit]
       (<["VK_DRIVER_FILES" :=
            "/Apps/Foo/runtimes/osx/native/MoltenVK_icd.json"]>
        (<["VK_ICD_FILENAMES" :=
            "/Apps/Foo/runtimes/osx/native/MoltenVK_icd.json"]>
         (<["DYLD_LIBRARY_PATH" :=
            "/Apps/Foo:/Apps/Foo/runtimes/osx/native"]> ∅)))).
Proof. vm_compute. reflexivity. Qed.

Example scenario_homebrew :
  inherited
    (launcher Game (demo ["/opt/homebrew/lib/libvulkan.dylib"] true)
       ["foo"] {["DYLD_LIBRARY_PATH" := "/opt/lib"]})
    "DYLD_LIBRARY_PATH" =
  Some "/Apps/Foo:/Apps/Foo/runtimes/osx/native:/opt/lib:/opt/homebrew/lib".
Proof. vm_compute. reflexivity. Qed.

Example scenario_not_resolved :
  launcher Engine
    {| _NSGetExecutablePath := λ _, (0%Z, "/gone");
       realpath := λ _, None;
       access_F_OK := λ _, (-1)%Z;
       execvp := λ _, true |} ["foo"] ∅ =
  Returned 1 ["Error: Could not resolve path" +:+ newline] None.
Proof. reflexivity. Qed.

(** Started without even an invocation name, [new_argv[argc + 1]] is
    [new_argv[1]]: the terminator replaces the module path. *)
Example scenario_empty_argv :
  c_vector (argument_vector Engine "/Apps/Foo/Foo.dll" []) = ["dotnet"].
Proof. reflexivity. Qed.

(** ** Facts about the C library model *)

Section strings.

Implicit Types (s t u : string) (n : nat).

Lemma app_nil_str t : EmptyString +:+ t = t.
Proof. reflexivity. Qed.

Lemma app_cons_str c s t : String c s +:+ t = String c (s +:+ t).
Proof. reflexivity. Qed.

Lemma app_nil_r_str s : s +:+ EmptyString = s.
Proof.
  induction s as [|c s IH]; [done |]. by rewrite app_cons_str, IH.
Qed.

Lemma length_app s t :
  String.length (s +:+ t) = String.length s + String.length t.
Proof.
  induction s as [|c s IH]; [done |].
  rewrite app_cons_str. simpl. by rewrite IH.
Qed.

Lemma app_assoc_str s t u : (s +:+ t) +:+ u = s +:+ t +:+ u.
Proof.
  induction s as [|c s IH]; [done |].
  by rewrite !app_cons_str, IH.
Qed.

Lemma str_take_length n s :
  String.length (str_take n s) = n `min` String.length s.
Proof.
  revert s; induction n as [|n IH]; intros [|c s]; simpl; try done.
  by rewrite IH.
Qed.

Lemma str_take_all n s : String.length s ≤ n → str_take n s = s.
Proof.
  revert s; induction n as [|n IH]; intros [|c s]; simpl; try done; try lia.
  intros ?. rewrite IH; [done | lia].
Qed.

Lemma str_take_prefix n s : String.prefix (str_take n s) s = true.
Proof.
  revert s; induction n as [|n IH]; intros [|c s]; simpl; try done.
  destruct (ascii_dec c c); [apply IH | done].
Qed.

(** Once a value fills its buffer, appending to it and storing it again
    changes nothing. *)
Lemma str_take_full_app n s t :
  n ≤ String.length s → str_take n (str_take n s +:+ t) = str_take n s.
Proof.
  revert s; induction n as [|n IH]; intros [|c s]; simpl; try done; try lia.
  intros ?. rewrite IH; [done | lia].
Qed.

Lemma snprintf_fits size s :
  String.length s < size → snprintf size s = s.
Proof. intros ?. apply str_take_all. lia. Qed.

Lemma snprintf_size size s : 0 < size → c_size (snprintf size s) ≤ size.
Proof. intros ?. unfold c_size, snprintf. rewrite str_take_length. lia. Qed.

Lemma snprintf_length size s :
  String.length (snprintf size s) = (size - 1) `min` String.length s.
Proof. apply str_take_length. Qed.

Lemma snprintf_prefix size s : String.prefix (snprintf size s) s = true.
Proof. apply str_take_prefix. Qed.

Lemma prefix_app s t : String.prefix s (s +:+ t) = true.
Proof.
  induction s as [|c s IH]; [by destruct t |].
  rewrite app_cons_str. simpl. by destruct (ascii_dec c c).
Qed.

Lemma strstr_unfold h needle :
  strstr h needle =
  if String.prefix needle h then Some 0
  else match h with
       | EmptyString => None
       | String _ rest => S <$> strstr rest needle
       end.
Proof. by destruct h. Qed.

Lemma strstr_app_r s needle t : strstr (s +:+ needle +:+ t) needle ≠ None.
Proof.
  induction s as [|c s IH].
  - rewrite app_nil_str, strstr_unfold. by rewrite prefix_app.
  - rewrite app_cons_str, strstr_unfold.
    destruct (String.prefix needle _); [done |].
    by destruct (strstr (s +:+ needle +:+ t) needle).
Qed.

Lemma strstr_app_end s needle : strstr (s +:+ needle) needle ≠ None.
Proof.
  pose proof (strstr_app_r s needle EmptyString) as H.
  by rewrite app_nil_r_str in H.
Qed.

End strings.

(** *** dirname and basename *)

Section path_components.

Implicit Types (r d : list ascii) (s D N : string).

Lemma length_string_of_list r :
  String.length (string_of_list_ascii r) = length r.
Proof. induction r as [|c r IH]; simpl; [done | by rewrite IH]. Qed.

Lemma length_list_of_string s :
  length (list_ascii_of_string s) = String.length s.
Proof. induction s as [|c s IH]; simpl; [done | by rewrite IH]. Qed.

Lemma list_of_string_app s t :
  list_ascii_of_string (s +:+ t) =
  list_ascii_of_string s ++ list_ascii_of_string t.
Proof.
  induction s as [|c s IH]; [done |].
  rewrite app_cons_str. simpl. by rewrite IH.
Qed.

Lemma strip_slashes_length r : length (strip_slashes r) ≤ length r.
Proof. induction r as [|c r IH]; simpl; [done |]. destruct (is_slash c); simpl; lia. Qed.

Lemma last_component_length r : length (last_component r) ≤ length r.
Proof. induction r as [|c r IH]; simpl; [done |]. destruct (is_slash c); simpl; lia. Qed.

Lemma before_last_component_length r :
  length (before_last_component r) ≤ length r.
Proof. induction r as [|c r IH]; simpl; [done |]. destruct (is_slash c); simpl; lia. Qed.

Lemma basename_length s : String.length (basename s) ≤ 1 `max` String.length s.
Proof.
  destruct s as [|c s]; [simpl; lia |].
  unfold basename.
  pose proof (strip_slashes_length (rev (list_ascii_of_string (String c s)))) as Hs.
  rewrite length_rev, length_list_of_string in Hs.
  destruct (strip_slashes _) as [|a r]; [simpl; lia |].
  rewrite length_string_of_list, length_rev.
  pose proof (last_component_length (a :: r)). lia.
Qed.

Lemma dirname_length s : String.length (dirname s) ≤ 1 `max` String.length s.
Proof.
  destruct s as [|c s]; [simpl; lia |].
  unfold dirname.
  pose proof (strip_slashes_length (rev (list_ascii_of_string (String c s)))) as Hs.
  rewrite length_rev, length_list_of_string in Hs.
  set (r := strip_slashes _) in *.
  pose proof (before_last_component_length r) as Hd.
  destruct (before_last_component r) as [|a d]; [destruct r; simpl; lia |].
  pose proof (strip_slashes_length (a :: d)) as Hd'.
  destruct (strip_slashes (a :: d)) as [|b d']; [simpl; lia |].
  rewrite length_string_of_list, length_rev. lia.
Qed.

Lemma last_component_name r d :
  Forall (λ c, is_slash c = false) r →
  last_component (r ++ "/"%char :: d) = r.
Proof. induction 1 as [|c r Hc _ IH]; simpl; [done |]. by rewrite Hc, IH. Qed.

Lemma before_last_component_name r d :
  Forall (λ c, is_slash c = false) r →
  before_last_component (r ++ "/"%char :: d) = "/"%char :: d.
Proof. induction 1 as [|c r Hc _ IH]; simpl; [done |]. by rewrite Hc. Qed.

Lemma rev_name N :
  file_name N →
  ∃ c r, rev (list_ascii_of_string N) = c :: r ∧ is_slash c = false ∧
         Forall (λ c, is_slash c = false) (c :: r).
Proof.
  intros [Hne Hall].
  assert (Forall (λ c, is_slash c = false) (rev (list_ascii_of_string N))) as Hr
    by (by apply Forall_rev).
  destruct (rev (list_ascii_of_string N)) as [|c r] eqn:E.
  - destruct N; [done |]. apply (f_equal length) in E.
    rewrite length_rev in E. simpl in E. lia.
  - exists c, r. split_and!; [done | by inversion Hr | done].
Qed.

Lemma rev_directory D c :
  last (list_ascii_of_string D) = Some c →
  ∃ d, rev (list_ascii_of_string D) = c :: d.
Proof.
  intros H. apply last_Some in H as [l Hl].
  exists (rev l). rewrite Hl. by rewrite rev_app_distr.
Qed.

Lemma entry_path_rev D N :
  directory_path D →
  rev (list_ascii_of_string (entry_path D N)) =
  rev (list_ascii_of_string N) ++ "/"%char ::
    (if String.eqb D "/" then [] else rev (list_ascii_of_string D)).
Proof.
  intros _. unfold entry_path. destruct (String.eqb D "/").
  - by rewrite list_of_string_app.
  - rewrite !list_of_string_app. simpl.
    rewrite rev_app_distr. simpl. by rewrite <- app_assoc.
Qed.

Lemma entry_path_nonempty D N : entry_path D N ≠ EmptyString.
Proof.
  unfold entry_path. destruct (String.eqb D "/"); [done |].
  destruct D; done.
Qed.

Lemma basename_entry D N :
  directory_path D → file_name N → basename (entry_path D N) = N.
Proof.
  intros HD HN. unfold basename.
  pose proof (entry_path_nonempty D N).
  destruct (entry_path D N) as [|a s] eqn:E; [done |]. rewrite <- E.
  rewrite entry_path_rev by done.
  destruct (rev_name N HN) as (c & r & Hrev & Hc & Hall). rewrite Hrev.
  inversion Hall as [|? ? _ Hr]; subst.
  simpl. rewrite Hc. simpl. rewrite Hc.
  rewrite last_component_name by done.
  change (rev r ++ [c]) with (rev (c :: r)).
  rewrite <- Hrev, rev_involutive. apply string_of_list_ascii_of_string.
Qed.

Lemma dirname_entry D N :
  directory_path D → file_name N → dirname (entry_path D N) = D.
Proof.
  intros HD HN. unfold dirname.
  pose proof (entry_path_nonempty D N).
  destruct (entry_path D N) as [|a s] eqn:E; [done |]. rewrite <- E.
  rewrite entry_path_rev by done.
  destruct (rev_name N HN) as (c & r & Hrev & Hc & Hall). rewrite Hrev.
  inversion Hall as [|? ? _ Hr]; subst.
  simpl. rewrite Hc. simpl. rewrite Hc.
  rewrite before_last_component_name by done.
  destruct (String.eqb_spec D "/") as [-> | Hne]; [done |].
  destruct HD as [-> | (e & Hlast & He)]; [done |].
  destruct (rev_directory D e Hlast) as [d Hd]. rewrite Hd.
  simpl. rewrite He.
  change (rev d ++ [e]) with (rev (e :: d)).
  rewrite <- Hd, rev_involutive. apply string_of_list_ascii_of_string.
Qed.

End path_components.

(** ** The launchers, block by block *)

Section launcher_blocks.

Context (v : variant) (P : Platform).

Implicit Types (argv args : list string) (env : Env) (real : string).

Lemma buffer_size_eq : buffer_size v = 4096.
Proof. by destruct v. Qed.

Lemma launcher_resolved argv env real :
  resolved v P = Some real →
  launcher v P argv env =
  let call := request v P real argv env in
  if execvp P call then Replaced call
  else Returned 1 ["Error: Could not execute dotnet" +:+ newline] (Some call).
Proof.
  unfold resolved, launcher, buffer_size.
  destruct v; unfold RedHoleEngine.main, RedHoleGame.main;
    destruct (_NSGetExecutablePath P _) as [rc exe];
    (destruct (rc =? 0)%Z; [|discriminate]); intros ->; reflexivity.
Qed.

Lemma launcher_unresolved argv env :
  resolved v P = None →
  ∃ msg, launcher v P argv env = Returned 1 [msg] None ∧
    (msg = "Error: Could not get executable path" +:+ newline ∨
     msg = "Error: Could not resolve path" +:+ newline).
Proof.
  unfold resolved, launcher, buffer_size.
  destruct v; unfold RedHoleEngine.main, RedHoleGame.main;
    destruct (_NSGetExecutablePath P _) as [rc exe];
    (destruct (rc =? 0)%Z; cbn [negb]; [intros -> |]); eauto.
Qed.

Lemma exec_of_launcher argv env real :
  resolved v P = Some real →
  exec_of (launcher v P argv env) = Some (request v P real argv env).
Proof.
  intros H. rewrite (launcher_resolved _ _ _ H). cbv zeta.
  by destruct (execvp P _).
Qed.

Lemma inherited_launcher argv env real name :
  resolved v P = Some real →
  inherited (launcher v P argv env) name =
  getenv (configured v P real env) name.
Proof.
  intros H. unfold inherited. by rewrite (exec_of_launcher _ _ _ H).
Qed.

Lemma present_access path :
  present v P path = (access_F_OK P path =? 0)%Z.
Proof. by destruct v. Qed.

Lemma launcher_alloc_allocated (heap : nat → bool) argv env :
  heap ((length argv + 3) * 8) = true →
  launcher_alloc v heap P argv env = Finished (launcher v P argv env).
Proof.
  unfold launcher_alloc, launcher.
  destruct v;
    unfold RedHoleEngine.main_alloc, RedHoleGame.main_alloc,
      RedHoleEngine.main, RedHoleGame.main; cbv zeta; intros ->;
    destruct (_NSGetExecutablePath P _) as [rc exe];
    (destruct (rc =? 0)%Z; cbn [negb]; [| reflexivity]);
    (destruct (realpath P exe); [| reflexivity]);
    by destruct (execvp P _).
Qed.

Lemma launcher_alloc_unresolved (heap : nat → bool) argv env :
  resolved v P = None →
  launcher_alloc v heap P argv env = Finished (launcher v P argv env).
Proof.
  unfold resolved, launcher_alloc, launcher, buffer_size.
  destruct v;
    unfold RedHoleEngine.main_alloc, RedHoleGame.main_alloc,
      RedHoleEngine.main, RedHoleGame.main; cbv zeta;
    destruct (_NSGetExecutablePath P _) as [rc exe];
    (destruct (rc =? 0)%Z; cbn [negb]; [intros -> |]); reflexivity.
Qed.

Lemma launcher_alloc_null (heap : nat → bool) argv env real :
  resolved v P = Some real →
  heap ((length argv + 3) * 8) = false →
  launcher_alloc v heap P argv env = Faulted.
Proof.
  unfold resolved, launcher_alloc, buffer_size.
  destruct v;
    unfold RedHoleEngine.main_alloc, RedHoleGame.main_alloc; cbv zeta;
    destruct (_NSGetExecutablePath P _) as [rc exe];
    (destruct (rc =? 0)%Z; cbn [negb]; [| discriminate]);
    intros -> ->; reflexivity.
Qed.

End launcher_blocks.

(** *** The argument vector *)

Section argument_vector.

Implicit Types (argv args : list string) (dll : string).

Lemma forward_loop argv args (a0 : string) dll k :
  argv = a0 :: args → k ≤ length args →
  foldl (λ a i, <[i + 1 := from_option Ptr Uninit (argv !! i)]> a)
        (Ptr "dotnet" :: Ptr dll :: replicate (length args + 2) Uninit)
        (seq 1 k) =
  Ptr "dotnet" :: Ptr dll ::
    (Ptr <$> take k args) ++ replicate (length args - k + 2) Uninit.
Proof.
  intros ->. induction k as [|k IH]; intros Hk.
  - simpl. by rewrite Nat.sub_0_r.
  - rewrite seq_S, foldl_app, IH by lia. simpl.
    destruct (lookup_lt_is_Some_2 args k) as [x Hx]; [lia |].
    rewrite Hx. simpl. rewrite (take_S_r _ _ _ Hx), fmap_app. simpl.
    replace (length args - k + 2) with (S (length args - S k + 2)) by lia.
    simpl. rewrite <- app_assoc. simpl.
    replace (k + 1) with (S k) by lia. simpl. do 2 f_equal.
    assert (length (Ptr <$> take k args) = k) as Hlen
      by (rewrite length_fmap, length_take; lia).
    rewrite <- Hlen at 1.
    by rewrite (insert_app_r_alt _ _ _ _ (le_n _)), Nat.sub_diag.
Qed.

Lemma build_argv_shape v dll (a0 : string) args :
  argument_vector v dll (a0 :: args) =
  Ptr "dotnet" :: Ptr dll :: (Ptr <$> args) ++ [Null; Uninit].
Proof.
  assert (RedHoleEngine.build_argv dll (a0 :: args) =
          Ptr "dotnet" :: Ptr dll :: (Ptr <$> args) ++ [Null; Uninit]) as H.
  { unfold RedHoleEngine.build_argv.
    change (length (a0 :: args)) with (S (length args)).
    replace (S (length args) + 3) with (S (S (length args + 2))) by lia.
    replace (S (length args) - 1) with (length args) by lia.
    cbn [replicate]. cbn [insert list_insert].
    rewrite (forward_loop (a0 :: args) args a0 dll) by done.
    rewrite firstn_all, Nat.sub_diag.
    replace (S (length args) + 1) with (S (S (length args))) by lia.
    simpl. do 2 f_equal.
    rewrite insert_app_r_alt by (rewrite length_fmap; lia).
    by rewrite length_fmap, Nat.sub_diag. }
  destruct v; exact H.
Qed.

Lemma c_vector_args (pre : list string) (rest : list slot) :
  c_vector ((Ptr <$> pre) ++ Null :: rest) = pre.
Proof. induction pre as [|s pre IH]; simpl; [done | by f_equal]. Qed.

End argument_vector.

(** *** The environment blocks *)

Section environment_blocks.

Context (v : variant) (P : Platform).

Implicit Types (env : Env) (p : paths) (name value real : string).

Lemma getenv_setenv name value env :
  getenv (setenv name value env) name = Some value.
Proof. apply lookup_insert_eq. Qed.

Lemma getenv_setenv_ne name name' value env :
  name ≠ name' → getenv (setenv name value env) name' = getenv env name'.
Proof. apply lookup_insert_ne. Qed.

Lemma library_path_step_eq p env :
  library_path_step v p env =
  setenv "DYLD_LIBRARY_PATH"
    (snprintf (buffer_size v * 2)
       (search_path p (getenv env "DYLD_LIBRARY_PATH"))) env.
Proof.
  unfold search_path.
  destruct v; unfold library_path_step, buffer_size,
    RedHoleEngine.set_library_path, RedHoleGame.set_library_path;
    cbv zeta; destruct (getenv env _) as [V|]; try reflexivity;
    destruct (0 <? String.length V); reflexivity.
Qed.

Lemma homebrew_step_eq env :
  homebrew_step v P env =
  if present v P "/opt/homebrew/lib/libvulkan.dylib" then
    match getenv env "DYLD_LIBRARY_PATH" with
    | Some dyld =>
      match strstr dyld "/opt/homebrew/lib" with
      | None =>
        setenv "DYLD_LIBRARY_PATH"
          (snprintf (buffer_size v * 2) (dyld +:+ ":/opt/homebrew/lib")) env
      | Some _ => env
      end
    | None => env
    end
  else env.
Proof. destruct v; reflexivity. Qed.

Lemma manifest_step_eq value env :
  manifest_step v value env =
  setenv "VK_DRIVER_FILES" value (setenv "VK_ICD_FILENAMES" value env).
Proof. destruct v; reflexivity. Qed.

Lemma manifest_choice_eq value :
  manifest_choice v P value =
  if present v P value then value
  else if present v P "/opt/homebrew/share/vulkan/icd.d/MoltenVK_icd.json"
  then "/opt/homebrew/share/vulkan/icd.d/MoltenVK_icd.json"
  else if present v P "/usr/local/share/vulkan/icd.d/MoltenVK_icd.json"
  then "/usr/local/share/vulkan/icd.d/MoltenVK_icd.json"
  else value.
Proof.
  destruct v; unfold manifest_choice, present,
    RedHoleEngine.choose_icd, RedHoleGame.choose_icd; cbv zeta;
    destruct (_ P value); cbn [negb]; try reflexivity;
    repeat (destruct (_ P _); try reflexivity).
Qed.

Lemma library_path_step_frame p env name :
  name ≠ "DYLD_LIBRARY_PATH" →
  getenv (library_path_step v p env) name = getenv env name.
Proof.
  intros ?. rewrite library_path_step_eq. by apply getenv_setenv_ne.
Qed.

Lemma homebrew_step_frame env name :
  name ≠ "DYLD_LIBRARY_PATH" →
  getenv (homebrew_step v P env) name = getenv env name.
Proof.
  intros ?. rewrite homebrew_step_eq.
  destruct (present v P _); [|done].
  destruct (getenv env "DYLD_LIBRARY_PATH") as [dyld|]; [|done].
  destruct (strstr dyld _); [done |]. by apply getenv_setenv_ne.
Qed.

Lemma configured_manifest real env :
  getenv (configured v P real env) "VK_ICD_FILENAMES" =
    Some (manifest_choice v P (icd_path (derived_paths v real))) ∧
  getenv (configured v P real env) "VK_DRIVER_FILES" =
    Some (manifest_choice v P (icd_path (derived_paths v real))).
Proof.
  unfold configured. cbv zeta. rewrite manifest_step_eq. split.
  - rewrite getenv_setenv_ne by done. apply getenv_setenv.
  - apply getenv_setenv.
Qed.

Lemma configured_library_path real env :
  getenv (configured v P real env) "DYLD_LIBRARY_PATH" =
  getenv (homebrew_step v P
            (library_path_step v (derived_paths v real) env))
         "DYLD_LIBRARY_PATH".
Proof.
  unfold configured. cbv zeta. rewrite manifest_step_eq.
  by rewrite !getenv_setenv_ne by done.
Qed.

Lemma configured_frame real env name :
  name ≠ "DYLD_LIBRARY_PATH" →
  name ≠ "VK_ICD_FILENAMES" →
  name ≠ "VK_DRIVER_FILES" →
  getenv (configured v P real env) name = getenv env name.
Proof.
  intros ???. unfold configured. cbv zeta. rewrite manifest_step_eq.
  rewrite !getenv_setenv_ne by done.
  rewrite homebrew_step_frame by done.
  by apply library_path_step_frame.
Qed.

End environment_blocks.

(** *** The derived paths *)

Section derived_paths.

Context (v : variant).

Implicit Types (real D N : string).

Lemma derived_paths_eq real :
  derived_paths v real =
  let dir := dirname real in
  let exe_name := strncpy (basename real) (buffer_size v - 1) in
  let dll_name := snprintf (buffer_size v) (exe_name +:+ ".dll") in
  {| dir := dir;
     exe_name := exe_name;
     dll_name := dll_name;
     dll_path := snprintf (buffer_size v) (dir +:+ "/" +:+ dll_name);
     icd_path :=
       snprintf (buffer_size v)
         (dir +:+ "/runtimes/osx/native/MoltenVK_icd.json");
     dyld_path := snprintf (buffer_size v) dir;
     native_path := snprintf (buffer_size v) (dir +:+ "/runtimes/osx/native") |}.
Proof. destruct v; reflexivity. Qed.

(** When everything fits its buffer no formatting call cuts anything. *)
Lemma derived_paths_fit real :
  String.length (dirname real) + 38 < buffer_size v →
  String.length (dirname real) + String.length (basename real) + 5
    < buffer_size v →
  derived_paths v real =
  {| dir := dirname real;
     exe_name := basename real;
     dll_name := basename real +:+ ".dll";
     dll_path := dirname real +:+ "/" +:+ basename real +:+ ".dll";
     icd_path := dirname real +:+ "/runtimes/osx/native/MoltenVK_icd.json";
     dyld_path := dirname real;
     native_path := dirname real +:+ "/runtimes/osx/native" |}.
Proof.
  rewrite derived_paths_eq, buffer_size_eq. cbv zeta. intros HD HN.
  assert (strncpy (basename real) (4096 - 1) = basename real) as ->.
  { apply str_take_all. lia. }
  assert (snprintf 4096 (basename real +:+ ".dll") = basename real +:+ ".dll")
    as ->.
  { apply snprintf_fits. rewrite length_app.
    change (String.length ".dll") with 4. lia. }
  f_equal; apply snprintf_fits; rewrite ?length_app;
    repeat match goal with
    | |- context [String.length (String ?c ?s)] =>
      let n := eval vm_compute in (String.length (String c s)) in
      change (String.length (String c s)) with n
    end; lia.
Qed.

Lemma derived_paths_resolved real :
  String.length real < PATH_MAX →
  derived_paths v real =
  {| dir := dirname real;
     exe_name := basename real;
     dll_name := basename real +:+ ".dll";
     dll_path := dirname real +:+ "/" +:+ basename real +:+ ".dll";
     icd_path := dirname real +:+ "/runtimes/osx/native/MoltenVK_icd.json";
     dyld_path := dirname real;
     native_path := dirname real +:+ "/runtimes/osx/native" |}.
Proof.
  unfold PATH_MAX. intros Hlen.
  pose proof (dirname_length real). pose proof (basename_length real).
  apply derived_paths_fit; rewrite buffer_size_eq; lia.
Qed.

(** For an executable that is the entry [N] of directory [D]. *)
Lemma module_path_of_entry D N :
  directory_path D → file_name N →
  String.length (entry_path D N) < PATH_MAX →
  dll_path (derived_paths v (entry_path D N)) = D +:+ "/" +:+ N +:+ ".dll".
Proof.
  intros HD HN Hlen. rewrite (derived_paths_resolved _ Hlen). cbn [dll_path].
  by rewrite dirname_entry, basename_entry.
Qed.

End derived_paths.

(** *** The library search path *)

Section library_path.

Context (v : variant) (P : Platform).

Implicit Types (env : Env) (real dyld : string).

Lemma library_path_value real env :
  String.length real < PATH_MAX →
  let D := dirname real in
  getenv (library_path_step v (derived_paths v real) env) "DYLD_LIBRARY_PATH" =
  Some (snprintf (buffer_size v * 2)
          (match getenv env "DYLD_LIBRARY_PATH" with
           | Some V =>
             if 0 <? String.length V
             then D +:+ ":" +:+ (D +:+ "/runtimes/osx/native") +:+ ":" +:+ V
             else D +:+ ":" +:+ (D +:+ "/runtimes/osx/native")
           | None => D +:+ ":" +:+ (D +:+ "/runtimes/osx/native")
           end)).
Proof.
  intros Hlen. cbv zeta. rewrite library_path_step_eq, getenv_setenv.
  rewrite (derived_paths_resolved v real Hlen). reflexivity.
Qed.

Lemma homebrew_step_absent env :
  present v P "/opt/homebrew/lib/libvulkan.dylib" = false →
  homebrew_step v P env = env.
Proof. intros H. by rewrite homebrew_step_eq, H. Qed.

Lemma homebrew_step_mentioned env dyld :
  getenv env "DYLD_LIBRARY_PATH" = Some dyld →
  strstr dyld "/opt/homebrew/lib" ≠ None →
  homebrew_step v P env = env.
Proof.
  intros H Hm. rewrite homebrew_step_eq, H.
  destruct (present v P _); [|done]. by destruct (strstr dyld _).
Qed.

Lemma homebrew_suffix_mentioned dyld :
  strstr (dyld +:+ ":/opt/homebrew/lib") "/opt/homebrew/lib" ≠ None.
Proof.
  change ":/opt/homebrew/lib" with (":" +:+ "/opt/homebrew/lib").
  rewrite <- app_assoc_str. apply strstr_app_end.
Qed.

Lemma setenv_setenv name value value' env :
  setenv name value (setenv name value' env) = setenv name value env.
Proof. apply insert_insert_eq. Qed.

(** The Homebrew block is idempotent on every environment: either the
    directory is mentioned after the first pass, or the value already
    fills the buffer and a second append is cut off entirely. *)
Lemma homebrew_step_idempotent env :
  homebrew_step v P (homebrew_step v P env) = homebrew_step v P env.
Proof.
  rewrite (homebrew_step_eq v P env).
  destruct (present v P _) eqn:Hp; [| by apply homebrew_step_absent].
  destruct (getenv env "DYLD_LIBRARY_PATH") as [dyld|] eqn:Hd;
    [| by rewrite homebrew_step_eq, Hp, Hd].
  destruct (strstr dyld _) eqn:Hs;
    [by rewrite homebrew_step_eq, Hp, Hd, Hs |].
  rewrite homebrew_step_eq, Hp, getenv_setenv.
  destruct (strstr (snprintf _ _) _) eqn:Hs'; [done |].
  rewrite setenv_setenv. f_equal.
  destruct (decide (String.length (dyld +:+ ":/opt/homebrew/lib")
                    < buffer_size v * 2)) as [Hfit | Hfull].
  - rewrite (snprintf_fits _ _ Hfit) in Hs'.
    by destruct (homebrew_suffix_mentioned dyld).
  - unfold snprintf. apply str_take_full_app. lia.
Qed.

End library_path.

(** *** Bounded formatting *)

Lemma snprintf_cut_to size formatted :
  0 < size → cut_to size formatted (snprintf size formatted).
Proof.
  intros Hsize. unfold cut_to. split_and!.
  - by apply snprintf_size.
  - apply snprintf_prefix.
  - apply snprintf_fits.
  - intros ?. rewrite snprintf_length. lia.
Qed.

Lemma strncpy_cut_to size src :
  0 < size → cut_to size src (strncpy src (size - 1)).
Proof. apply snprintf_cut_to. Qed.

(** ** The specification, claim by claim *)

(** C1, as stated, fails: with a prior value of 8192 bytes the composed
    value does not fit [new_dyld], and what is set (and inherited) is
    only its first 8191 bytes. *)
Lemma library_path_prepended_counterexample :
  let env : Env := {["DYLD_LIBRARY_PATH" := long_value]} in
  let claimed := "/Apps/Foo:/Apps/Foo/runtimes/osx/native:" +:+ long_value in
  resolved Engine (demo [] true) = Some "/Apps/Foo/Foo" ∧
  dirname "/Apps/Foo/Foo" = "/Apps/Foo" ∧
  long_value ≠ EmptyString ∧
  getenv (library_path_step Engine (derived_paths Engine "/Apps/Foo/Foo") env)
         "DYLD_LIBRARY_PATH" ≠ Some claimed ∧
  inherited (launcher Engine (demo [] true) ["foo"] env) "DYLD_LIBRARY_PATH"
    ≠ Some claimed.
Proof.
  cbv zeta. split_and!; [reflexivity | reflexivity | by vm_compute | |];
    intros H; apply (f_equal (fmap String.length)) in H;
    vm_compute in H; discriminate H.
Qed.

(** C1, amended.  Let [D] be the directory of the resolved executable.  If
    DYLD_LIBRARY_PATH is unset or empty beforehand, the search-path block
    sets it to exactly D:D/runtimes/osx/native; if it held a non-empty
    [V], to exactly D:D/runtimes/osx/native:V, provided that value is
    shorter than the 8192 bytes of [new_dyld].  It is also the value the
    replacement image inherits whenever the Homebrew block does not
    append: the Homebrew library is absent or the value mentions
    /opt/homebrew/lib already.  [real] is a path as [realpath] returns
    it, shorter than [PATH_MAX]. *)
Theorem library_path_prepended v P argv env real D :
  resolved v P = Some real →
  String.length real < PATH_MAX →
  dirname real = D →
  let base := D +:+ ":" +:+ D +:+ "/runtimes/osx/native" in
  let after_block :=
    getenv (library_path_step v (derived_paths v real) env)
           "DYLD_LIBRARY_PATH" in
  let final := inherited (launcher v P argv env) "DYLD_LIBRARY_PATH" in
  let no_append value :=
    present v P "/opt/homebrew/lib/libvulkan.dylib" = false ∨
    strstr value "/opt/homebrew/lib" ≠ None in
  (getenv env "DYLD_LIBRARY_PATH" = None ∨
   getenv env "DYLD_LIBRARY_PATH" = Some EmptyString →
   fits (buffer_size v * 2) base →
   after_block = Some base ∧ (no_append base → final = Some base)) ∧
  (∀ V, getenv env "DYLD_LIBRARY_PATH" = Some V → V ≠ EmptyString →
   fits (buffer_size v * 2) (base +:+ ":" +:+ V) →
   after_block = Some (base +:+ ":" +:+ V) ∧
   (no_append (base +:+ ":" +:+ V) → final = Some (base +:+ ":" +:+ V))).
Proof.
  intros Hres Hlen <-. cbv zeta.
  rewrite (inherited_launcher v P argv env real _ Hres).
  rewrite configured_library_path.
  pose proof (library_path_value v real env Hlen) as Hval. cbv zeta in Hval.
  assert (∀ value,
    getenv (library_path_step v (derived_paths v real) env)
           "DYLD_LIBRARY_PATH" = Some value →
    present v P "/opt/homebrew/lib/libvulkan.dylib" = false ∨
      strstr value "/opt/homebrew/lib" ≠ None →
    getenv (homebrew_step v P (library_path_step v (derived_paths v real) env))
           "DYLD_LIBRARY_PATH" = Some value) as Hfinal.
  { intros value Hv [Habs | Hm].
    - by rewrite homebrew_step_absent.
    - by rewrite (homebrew_step_mentioned v P _ value Hv Hm). }
  split.
  - intros Hprior Hfit.
    assert (getenv (library_path_step v (derived_paths v real) env)
                   "DYLD_LIBRARY_PATH" =
            Some (dirname real +:+ ":" +:+ dirname real +:+
                    "/runtimes/osx/native")) as Hstep.
    { rewrite Hval. destruct Hprior as [-> | ->]; cbn [String.length Nat.ltb Nat.leb];
        by rewrite (snprintf_fits _ _ Hfit). }
    split; [done |]. by apply Hfinal.
  - intros V HV Hne Hfit.
    assert (getenv (library_path_step v (derived_paths v real) env)
                   "DYLD_LIBRARY_PATH" =
            Some ((dirname real +:+ ":" +:+ dirname real +:+
                     "/runtimes/osx/native") +:+ ":" +:+ V)) as Hstep.
    { rewrite Hval, HV. destruct V as [|c V]; [done |].
      cbn [String.length Nat.ltb Nat.leb].
      rewrite <- (snprintf_fits _ _ Hfit). f_equal. f_equal.
      by rewrite !app_assoc_str. }
    split; [done |]. by apply Hfinal.
Qed.

Lemma library_path_prepended_witness :
  let env : Env := {["DYLD_LIBRARY_PATH" := "/opt/lib"]} in
  getenv (library_path_step Engine (derived_paths Engine "/Apps/Foo/Foo") env)
         "DYLD_LIBRARY_PATH" =
    Some (("/Apps/Foo" +:+ ":" +:+ "/Apps/Foo" +:+ "/runtimes/osx/native")
            +:+ ":" +:+ "/opt/lib") ∧
  inherited (launcher Engine (demo [] true) ["foo"] env) "DYLD_LIBRARY_PATH" =
    Some (("/Apps/Foo" +:+ ":" +:+ "/Apps/Foo" +:+ "/runtimes/osx/native")
            +:+ ":" +:+ "/opt/lib").
Proof.
  cbv zeta.
  assert (String.length "/Apps/Foo/Foo" < PATH_MAX) as Hlen
    by (vm_compute; lia).
  destruct (proj2 (library_path_prepended Engine (demo [] true) ["foo"]
                     {["DYLD_LIBRARY_PATH" := "/opt/lib"]}
                     "/Apps/Foo/Foo" "/Apps/Foo" eq_refl Hlen eq_refl)
                  "/opt/lib") as [Hblock Hfinal].
  - vm_compute. reflexivity.
  - discriminate.
  - unfold fits. vm_compute. lia.
  - split; [exact Hblock |]. apply Hfinal. left. reflexivity.
Defined.

(** C2.  For every state of the file system, as [access] reports it,
    the manifest path written to VK_ICD_FILENAMES and to VK_DRIVER_FILES
    is the bundled D/runtimes/osx/native/MoltenVK_icd.json if that file
    exists, else the Homebrew manifest if it exists, else the /usr/local
    manifest if it exists, else the bundled path again although it does
    not exist; both variables get the same value, and the launcher goes
    on to [execvp] whichever candidate is missing.  [real] is a path as
    [realpath] returns it, shorter than [PATH_MAX]. *)
Theorem manifest_cascade v P argv env real D :
  resolved v P = Some real →
  String.length real < PATH_MAX →
  dirname real = D →
  let on_disk path := (access_F_OK P path =? 0)%Z in
  let bundled := D +:+ "/runtimes/osx/native/MoltenVK_icd.json" in
  let brew := "/opt/homebrew/share/vulkan/icd.d/MoltenVK_icd.json" in
  let local := "/usr/local/share/vulkan/icd.d/MoltenVK_icd.json" in
  let chosen :=
    if on_disk bundled then bundled
    else if on_disk brew then brew
    else if on_disk local then local
    else bundled in
  inherited (launcher v P argv env) "VK_ICD_FILENAMES" = Some chosen ∧
  inherited (launcher v P argv env) "VK_DRIVER_FILES" = Some chosen ∧
  ∃ call, exec_of (launcher v P argv env) = Some call ∧
    (execvp P call = true → launcher v P argv env = Replaced call).
Proof.
  intros Hres Hlen <-. cbv zeta.
  rewrite !(inherited_launcher v P argv env real _ Hres).
  destruct (configured_manifest v P real env) as [-> ->].
  rewrite (derived_paths_resolved v real Hlen). cbn [icd_path].
  rewrite manifest_choice_eq, !present_access. split_and!; [done | done |].
  exists (request v P real argv env).
  split; [by apply exec_of_launcher |].
  intros Hexec. rewrite (launcher_resolved v P argv env real Hres).
  cbv zeta. by rewrite Hexec.
Qed.

Lemma manifest_cascade_witness :
  inherited (launcher Engine
               (demo ["/usr/local/share/vulkan/icd.d/MoltenVK_icd.json"] true)
               ["foo"] ∅) "VK_ICD_FILENAMES" =
    Some "/usr/local/share/vulkan/icd.d/MoltenVK_icd.json" ∧
  inherited (launcher Engine (demo [] true) ["foo"] ∅) "VK_DRIVER_FILES" =
    Some "/Apps/Foo/runtimes/osx/native/MoltenVK_icd.json".
Proof.
  split.
  - refine (proj1 (manifest_cascade Engine
                     (demo ["/usr/local/share/vulkan/icd.d/MoltenVK_icd.json"]
                        true)
                     ["foo"] ∅ "/Apps/Foo/Foo" "/Apps/Foo" eq_refl _ eq_refl)).
    vm_compute. lia.
  - refine (proj1 (proj2 (manifest_cascade Engine (demo [] true)
                     ["foo"] ∅ "/Apps/Foo/Foo" "/Apps/Foo" eq_refl _ eq_refl))).
    vm_compute. lia.
Defined.

(** C3.  For every original argument list [args] (what follows the
    launcher's own invocation name [a0]), the vector handed to [execvp] is
    exactly the token "dotnet", the module path and [args] in their
    original order and content, followed by the NULL terminator: the
    array holds [length args + 2] entries and then NULL. *)
Theorem argv_forwarded v P (a0 : string) (args : list string) env real :
  resolved v P = Some real →
  ∃ call,
    exec_of (launcher v P (a0 :: args) env) = Some call ∧
    exec_file call = "dotnet" ∧
    exec_argv call =
      Ptr "dotnet" :: Ptr (dll_path (derived_paths v real)) ::
        (Ptr <$> args) ++ [Null; Uninit] ∧
    c_vector (exec_argv call) =
      "dotnet" :: dll_path (derived_paths v real) :: args ∧
    length (c_vector (exec_argv call)) = length args + 2 ∧
    exec_argv call !! (length args + 2) = Some Null.
Proof.
  intros Hres. exists (request v P real (a0 :: args) env).
  split; [by apply exec_of_launcher |]. split; [done |].
  unfold request. cbn [exec_argv]. rewrite build_argv_shape.
  split; [done |].
  assert (c_vector
            (Ptr "dotnet" :: Ptr (dll_path (derived_paths v real)) ::
               (Ptr <$> args) ++ [Null; Uninit]) =
          "dotnet" :: dll_path (derived_paths v real) :: args) as Hvec.
  { cbn [c_vector]. by rewrite c_vector_args. }
  rewrite Hvec. split; [done |]. split; [simpl; lia |].
  change (Ptr "dotnet" :: Ptr ?d :: ?l ++ ?r)
    with ((Ptr "dotnet" :: Ptr d :: l) ++ r).
  rewrite lookup_app_r by (simpl; rewrite length_fmap; lia).
  simpl. rewrite length_fmap.
  by replace (length args + 2 - S (S (length args))) with 0 by lia.
Qed.

Lemma argv_forwarded_witness :
  resolved Engine (demo [] true) = Some "/Apps/Foo/Foo" ∧
  ∃ call,
    exec_of (launcher Engine (demo [] true) ["foo"; "a"; "b"] ∅) = Some call ∧
    exec_file call = "dotnet" ∧
    exec_argv call =
      Ptr "dotnet" :: Ptr (dll_path (derived_paths Engine "/Apps/Foo/Foo")) ::
        (Ptr <$> ["a"; "b"]) ++ [Null; Uninit] ∧
    c_vector (exec_argv call) =
      "dotnet" :: dll_path (derived_paths Engine "/Apps/Foo/Foo") ::
        ["a"; "b"] ∧
    length (c_vector (exec_argv call)) = length ["a"; "b"] + 2 ∧
    exec_argv call !! (length ["a"; "b"] + 2) = Some Null.
Proof.
  split; [reflexivity |].
  apply (argv_forwarded Engine (demo [] true) "foo" ["a"; "b"] ∅
           "/Apps/Foo/Foo").
  reflexivity.
Defined.

(** C4.  For every executable whose resolved path [real] has directory
    [D] and base name [N], the module path the launcher computes and
    passes to dotnet is exactly D/N.dll.  The path [_NSGetExecutablePath]
    reported, the invocation name [a0], the other arguments and the
    environment are arbitrary: only the resolved path matters.  [real] is
    a path as [realpath] returns it, shorter than [PATH_MAX]. *)
Theorem module_path_of_resolved v P (a0 : string) args env real D N :
  resolved v P = Some real →
  String.length real < PATH_MAX →
  dirname real = D →
  basename real = N →
  dll_path (derived_paths v real) = D +:+ "/" +:+ N +:+ ".dll" ∧
  ∃ call,
    exec_of (launcher v P (a0 :: args) env) = Some call ∧
    c_vector (exec_argv call) !! 1 = Some (D +:+ "/" +:+ N +:+ ".dll").
Proof.
  intros Hres Hlen <- <-.
  rewrite (derived_paths_resolved v real Hlen). cbn [dll_path].
  split; [done |].
  exists (request v P real (a0 :: args) env).
  split; [by apply exec_of_launcher |].
  unfold request. cbn [exec_argv]. rewrite build_argv_shape.
  by rewrite (derived_paths_resolved v real Hlen).
Qed.

Lemma module_path_of_resolved_witness :
  dll_path (derived_paths Game "/Apps/Foo/Foo") = "/Apps/Foo/Foo.dll" ∧
  ∃ call,
    exec_of (launcher Game (demo [] true) ["./foo"; "--fullscreen"] ∅)
      = Some call ∧
    c_vector (exec_argv call) !! 1 = Some "/Apps/Foo/Foo.dll".
Proof.
  refine (module_path_of_resolved Game (demo [] true) "./foo"
            ["--fullscreen"] ∅ "/Apps/Foo/Foo" "/Apps/Foo" "Foo"
            eq_refl _ eq_refl eq_refl).
  vm_compute. lia.
Defined.

(** C5, as stated, fails: the Homebrew library exists and the search
    path just set (cut to 8191 bytes) does not mention /opt/homebrew/lib,
    yet the block leaves the value as it was, because the extended value
    is cut to the same 8191 bytes. *)
Lemma homebrew_directory_appended_counterexample :
  let P := demo ["/opt/homebrew/lib/libvulkan.dylib"] true in
  let env : Env :=
    library_path_step Engine (derived_paths Engine "/Apps/Foo/Foo")
      {["DYLD_LIBRARY_PATH" := long_value]} in
  let just_set :=
    snprintf (RedHoleEngine.MAX_PATH * 2)
      ("/Apps/Foo:/Apps/Foo/runtimes/osx/native:" +:+ long_value) in
  present Engine P "/opt/homebrew/lib/libvulkan.dylib" = true ∧
  getenv env "DYLD_LIBRARY_PATH" = Some just_set ∧
  strstr just_set "/opt/homebrew/lib" = None ∧
  getenv (homebrew_step Engine P env) "DYLD_LIBRARY_PATH" = Some just_set ∧
  just_set +:+ ":/opt/homebrew/lib" ≠ just_set.
Proof.
  cbv zeta. split_and!; [reflexivity | by vm_compute | by vm_compute
                         | by vm_compute |].
  intros H. apply (f_equal String.length) in H.
  vm_compute in H. discriminate H.
Qed.

(** C5, amended.  If /opt/homebrew/lib/libvulkan.dylib exists, the search
    path does not mention /opt/homebrew/lib and the extended value is
    shorter than the 8192 bytes of [new_dyld], the block appends
    ":/opt/homebrew/lib" once, at the end.  A second pass of the block
    changes nothing, on any environment; and after a further pass of the
    search-path block whose value fits, the Homebrew block does not append
    again. *)
Theorem homebrew_directory_appended v P env dyld :
  present v P "/opt/homebrew/lib/libvulkan.dylib" = true →
  getenv env "DYLD_LIBRARY_PATH" = Some dyld →
  strstr dyld "/opt/homebrew/lib" = None →
  fits (buffer_size v * 2) (dyld +:+ ":/opt/homebrew/lib") →
  getenv (homebrew_step v P env) "DYLD_LIBRARY_PATH" =
    Some (dyld +:+ ":/opt/homebrew/lib") ∧
  (∀ env', homebrew_step v P (homebrew_step v P env') = homebrew_step v P env') ∧
  (∀ p,
     fits (buffer_size v * 2)
       (search_path p (Some (dyld +:+ ":/opt/homebrew/lib"))) →
     homebrew_step v P (library_path_step v p (homebrew_step v P env)) =
     library_path_step v p (homebrew_step v P env)).
Proof.
  intros Hp Hd Hs Hfit.
  assert (getenv (homebrew_step v P env) "DYLD_LIBRARY_PATH" =
          Some (dyld +:+ ":/opt/homebrew/lib")) as Hnew.
  { rewrite homebrew_step_eq, Hp, Hd, Hs, getenv_setenv.
    by rewrite (snprintf_fits _ _ Hfit). }
  split_and!; [done | apply homebrew_step_idempotent |].
  intros p Hfit'.
  eapply homebrew_step_mentioned.
  { rewrite library_path_step_eq, getenv_setenv, Hnew.
    by rewrite (snprintf_fits _ _ Hfit'). }
  unfold search_path.
  assert ((0 <? String.length (dyld +:+ ":/opt/homebrew/lib")) = true) as ->.
  { rewrite length_app. apply Nat.ltb_lt.
    change (String.length ":/opt/homebrew/lib") with 18. lia. }
  rewrite <- !app_assoc_str. apply homebrew_suffix_mentioned.
Qed.

Lemma homebrew_directory_appended_witness :
  let P := demo ["/opt/homebrew/lib/libvulkan.dylib"] true in
  let env : Env := {["DYLD_LIBRARY_PATH" := "/Apps/Foo:/opt/lib"]} in
  getenv (homebrew_step Game P env) "DYLD_LIBRARY_PATH" =
    Some ("/Apps/Foo:/opt/lib" +:+ ":/opt/homebrew/lib").
Proof.
  cbv zeta.
  refine (proj1 (homebrew_directory_appended Game
                   (demo ["/opt/homebrew/lib/libvulkan.dylib"] true)
                   {["DYLD_LIBRARY_PATH" := "/Apps/Foo:/opt/lib"]}
                   "/Apps/Foo:/opt/lib" eq_refl _ eq_refl _)).
  - vm_compute. reflexivity.
  - unfold fits. vm_compute. lia.
Defined.

(** With the argument array allocated, [main] fails in exactly three
    ways: the executable path cannot be determined, symlink resolution
    fails, or [execvp] comes back.  Each writes one line to the standard
    error stream and returns status 1; nothing is retried.  In the third
    case the [execvp] call was made and returned before the message and
    the exit.  In the one remaining case the process image is replaced. *)
Theorem three_failures v P argv env :
  let located := _NSGetExecutablePath P (buffer_size v) in
  (located.1 ≠ 0%Z →
   launcher v P argv env =
   Returned 1 ["Error: Could not get executable path" +:+ newline] None) ∧
  (located.1 = 0%Z → realpath P located.2 = None →
   launcher v P argv env =
   Returned 1 ["Error: Could not resolve path" +:+ newline] None) ∧
  (∀ real, located.1 = 0%Z → realpath P located.2 = Some real →
   execvp P (request v P real argv env) = false →
   launcher v P argv env =
   Returned 1 ["Error: Could not execute dotnet" +:+ newline]
            (Some (request v P real argv env))) ∧
  (∀ real, located.1 = 0%Z → realpath P located.2 = Some real →
   execvp P (request v P real argv env) = true →
   launcher v P argv env = Replaced (request v P real argv env)) ∧
  (∀ status err attempted,
   launcher v P argv env = Returned status err attempted →
   status = 1%Z ∧ length err = 1 ∧
   (located.1 ≠ 0%Z ∧ attempted = None ∨
    located.1 = 0%Z ∧ realpath P located.2 = None ∧ attempted = None ∨
    ∃ real, located.1 = 0%Z ∧ realpath P located.2 = Some real ∧
      execvp P (request v P real argv env) = false ∧
      attempted = Some (request v P real argv env))).
Proof.
  cbv zeta.
  assert (∀ real, (_NSGetExecutablePath P (buffer_size v)).1 = 0%Z →
          realpath P (_NSGetExecutablePath P (buffer_size v)).2 = Some real →
          resolved v P = Some real) as Hres.
  { intros real. unfold resolved.
    destruct (_NSGetExecutablePath P _) as [rc exe]. simpl.
    by intros -> ->. }
  assert ((_NSGetExecutablePath P (buffer_size v)).1 ≠ 0%Z →
          launcher v P argv env =
          Returned 1 ["Error: Could not get executable path" +:+ newline] None)
    as Hpath.
  { unfold launcher, buffer_size.
    destruct v; unfold RedHoleEngine.main, RedHoleGame.main;
      destruct (_NSGetExecutablePath P _) as [rc exe]; cbn [fst];
      intros Hrc; apply Z.eqb_neq in Hrc; by rewrite Hrc. }
  assert ((_NSGetExecutablePath P (buffer_size v)).1 = 0%Z →
          realpath P (_NSGetExecutablePath P (buffer_size v)).2 = None →
          launcher v P argv env =
          Returned 1 ["Error: Could not resolve path" +:+ newline] None)
    as Hlink.
  { unfold launcher, buffer_size.
    destruct v; unfold RedHoleEngine.main, RedHoleGame.main;
      destruct (_NSGetExecutablePath P _) as [rc exe]; cbn [fst snd];
      intros -> ->; reflexivity. }
  split_and!; [done | done | | |].
  - intros real H1 H2 Hexec.
    rewrite (launcher_resolved v P argv env real (Hres _ H1 H2)).
    cbv zeta. by rewrite Hexec.
  - intros real H1 H2 Hexec.
    rewrite (launcher_resolved v P argv env real (Hres _ H1 H2)).
    cbv zeta. by rewrite Hexec.
  - intros status err attempted.
    destruct (decide ((_NSGetExecutablePath P (buffer_size v)).1 = 0%Z))
      as [H1 | H1];
      [| rewrite (Hpath H1); intros [= <- <- <-];
         split_and!; [done | done | by left]].
    destruct (realpath P (_NSGetExecutablePath P (buffer_size v)).2)
      as [real|] eqn:H2;
      [| rewrite (Hlink H1 eq_refl); intros [= <- <- <-];
         split_and!; [done | done | by right; left]].
    rewrite (launcher_resolved v P argv env real (Hres _ H1 eq_refl)).
    cbv zeta. destruct (execvp P _) eqn:Hexec; [done |].
    intros [= <- <- <-]. split_and!; [done | done |].
    right; right. by exists real.
Qed.

Lemma three_failures_witness :
  launcher Engine (demo [] false) ["foo"] ∅ =
  Returned 1 ["Error: Could not execute dotnet" +:+ newline]
           (Some (request Engine (demo [] false) "/Apps/Foo/Foo" ["foo"] ∅)).
Proof.
  destruct (three_failures Engine (demo [] false) ["foo"] ∅)
    as (_ & _ & H & _).
  apply H; reflexivity.
Defined.

(** C6.  A run of the launcher fails in four ways, not three.  Three are
    reported, each with one line on the standard error stream and status
    1: the executable path cannot be determined, symlink resolution fails,
    or [execvp] comes back (after the call was made).  The fourth is not:
    when [malloc] returns NULL the store into [new_argv[0]] faults, with
    no message and no exit status, because the result of [malloc] is the
    one result the source does not test. *)
Theorem launcher_failures v (heap : nat → bool) P argv env :
  let located := _NSGetExecutablePath P (buffer_size v) in
  let allocated := heap ((length argv + 3) * 8) in
  let r := launcher_alloc v heap P argv env in
  (located.1 ≠ 0%Z →
   r = Finished
         (Returned 1 ["Error: Could not get executable path" +:+ newline]
                   None)) ∧
  (located.1 = 0%Z → realpath P located.2 = None →
   r = Finished
         (Returned 1 ["Error: Could not resolve path" +:+ newline] None)) ∧
  (∀ real, located.1 = 0%Z → realpath P located.2 = Some real →
   allocated = false →
   r = Faulted ∧ exit_status r = None ∧ diagnostics r = []) ∧
  (∀ real, located.1 = 0%Z → realpath P located.2 = Some real →
   allocated = true →
   execvp P (request v P real argv env) = false →
   r = Finished
         (Returned 1 ["Error: Could not execute dotnet" +:+ newline]
                   (Some (request v P real argv env)))) ∧
  (∀ real, located.1 = 0%Z → realpath P located.2 = Some real →
   allocated = true →
   execvp P (request v P real argv env) = true →
   r = Finished (Replaced (request v P real argv env))).
Proof.
  cbv zeta.
  assert (∀ real, (_NSGetExecutablePath P (buffer_size v)).1 = 0%Z →
          realpath P (_NSGetExecutablePath P (buffer_size v)).2 = Some real →
          resolved v P = Some real) as Hres.
  { intros real. unfold resolved.
    destruct (_NSGetExecutablePath P _) as [rc exe]. simpl.
    by intros -> ->. }
  assert ((_NSGetExecutablePath P (buffer_size v)).1 ≠ 0%Z ∨
          (_NSGetExecutablePath P (buffer_size v)).1 = 0%Z ∧
          realpath P (_NSGetExecutablePath P (buffer_size v)).2 = None →
          resolved v P = None) as Hnone.
  { unfold resolved.
    destruct (_NSGetExecutablePath P _) as [rc exe]. simpl.
    intros [Hrc | [-> ->]]; [| done].
    apply Z.eqb_neq in Hrc. by rewrite Hrc. }
  destruct (three_failures v P argv env) as (F1 & F2 & F3 & F4 & _).
  split_and!.
  - intros H. rewrite launcher_alloc_unresolved by auto. by rewrite F1.
  - intros H1 H2. rewrite launcher_alloc_unresolved by auto.
    by rewrite F2.
  - intros real H1 H2 Hnull.
    by rewrite (launcher_alloc_null v P heap argv env real (Hres _ H1 H2) Hnull).
  - intros real H1 H2 Hok Hexec. rewrite launcher_alloc_allocated by done.
    by rewrite (F3 real H1 H2 Hexec).
  - intros real H1 H2 Hok Hexec. rewrite launcher_alloc_allocated by done.
    by rewrite (F4 real H1 H2 Hexec).
Qed.

Lemma launcher_failures_witness :
  let r := launcher_alloc Engine (λ _, false) (demo [] true) ["foo"] ∅ in
  r = Faulted ∧ exit_status r = None ∧ diagnostics r = [].
Proof.
  cbv zeta.
  destruct (launcher_failures Engine (λ _, false) (demo [] true) ["foo"] ∅)
    as (_ & _ & H & _).
  apply (H "/Apps/Foo/Foo"); reflexivity.
Defined.

(** C7.  For every platform, argument list and prior environment the
    RedHoleEngine and the RedHoleGame launcher end in the same outcome
    (same status and message on failure, same [execvp] call with the same
    argument vector and environment otherwise), and every block of the two
    computes the same function. *)
Theorem variants_agree P argv env :
  launcher Engine P argv env = launcher Game P argv env ∧
  buffer_size Engine = buffer_size Game ∧
  (∀ real, derived_paths Engine real = derived_paths Game real) ∧
  (∀ p e, library_path_step Engine p e = library_path_step Game p e) ∧
  (∀ e, homebrew_step Engine P e = homebrew_step Game P e) ∧
  (∀ path, manifest_choice Engine P path = manifest_choice Game P path) ∧
  (∀ path e, manifest_step Engine path e = manifest_step Game path e) ∧
  (∀ dll, argument_vector Engine dll argv = argument_vector Game dll argv).
Proof. repeat split; reflexivity. Qed.

(** C8.  Every environment variable other than DYLD_LIBRARY_PATH,
    VK_ICD_FILENAMES and VK_DRIVER_FILES has, in the environment handed to
    [execvp], the value (or absence) it had when the launcher started. *)
Theorem other_variables_untouched v P argv env name call :
  name ≠ "DYLD_LIBRARY_PATH" →
  name ≠ "VK_ICD_FILENAMES" →
  name ≠ "VK_DRIVER_FILES" →
  exec_of (launcher v P argv env) = Some call →
  getenv (exec_env call) name = getenv env name.
Proof.
  intros H1 H2 H3 Hcall.
  destruct (resolved v P) as [real|] eqn:Hres.
  - rewrite (exec_of_launcher v P argv env real Hres) in Hcall.
    injection Hcall as <-. by apply configured_frame.
  - destruct (launcher_unresolved v P argv env Hres) as (msg & Ho & _).
    by rewrite Ho in Hcall.
Qed.

Lemma other_variables_untouched_witness :
  getenv
    (exec_env (request Engine (demo [] true) "/Apps/Foo/Foo" ["foo"]
                 {["HOME" := "/Users/me"]}))
    "HOME" = getenv {["HOME" := "/Users/me"]} "HOME".
Proof.
  apply (other_variables_untouched Engine (demo [] true) ["foo"]
           {["HOME" := "/Users/me"]} "HOME"); [done | done | done |].
  reflexivity.
Defined.

(** C9.  Whatever VK_ICD_FILENAMES and VK_DRIVER_FILES held before, both
    hold the manifest path the launcher selected when [execvp] is called:
    the selection does not look at the prior environment, so a value the
    user had configured is overwritten.  The library search path is
    treated differently: a non-empty prior value is formatted into the new
    one, after the two directories. *)
Theorem manifest_variables_overwritten v P argv env real :
  resolved v P = Some real →
  let chosen := manifest_choice v P (icd_path (derived_paths v real)) in
  inherited (launcher v P argv env) "VK_ICD_FILENAMES" = Some chosen ∧
  inherited (launcher v P argv env) "VK_DRIVER_FILES" = Some chosen ∧
  (∀ user_icd user_driver,
     let env' :=
       setenv "VK_ICD_FILENAMES" user_icd
         (setenv "VK_DRIVER_FILES" user_driver env) in
     inherited (launcher v P argv env') "VK_ICD_FILENAMES" = Some chosen ∧
     inherited (launcher v P argv env') "VK_DRIVER_FILES" = Some chosen) ∧
  (∀ V, getenv env "DYLD_LIBRARY_PATH" = Some V → V ≠ EmptyString →
     let p := derived_paths v real in
     getenv (library_path_step v p env) "DYLD_LIBRARY_PATH" =
     Some (snprintf (buffer_size v * 2)
             (dyld_path p +:+ ":" +:+ native_path p +:+ ":" +:+ V))).
Proof.
  intros Hres. cbv zeta.
  rewrite !(inherited_launcher v P argv env real _ Hres).
  destruct (configured_manifest v P real env) as [-> ->].
  split_and!; try done.
  - intros user_icd user_driver.
    rewrite !(inherited_launcher v P argv _ real _ Hres).
    apply configured_manifest.
  - intros V HV Hne. rewrite library_path_step_eq, getenv_setenv.
    rewrite HV. unfold search_path. by destruct V.
Qed.

Lemma manifest_variables_overwritten_witness :
  let env : Env := {["VK_ICD_FILENAMES" := "/Users/me/my_icd.json"]} in
  inherited (launcher Engine
               (demo ["/usr/local/share/vulkan/icd.d/MoltenVK_icd.json"] true)
               ["foo"] env) "VK_ICD_FILENAMES" =
  Some "/usr/local/share/vulkan/icd.d/MoltenVK_icd.json".
Proof.
  exact (proj1 (manifest_variables_overwritten Engine
                  (demo ["/usr/local/share/vulkan/icd.d/MoltenVK_icd.json"] true)
                  ["foo"] {["VK_ICD_FILENAMES" := "/Users/me/my_icd.json"]}
                  "/Apps/Foo/Foo" eq_refl)).
Defined.

(** C10.  Every derived string is written with a bound: the path buffers
    hold at most 4096 bytes including the NUL, the search path at most
    8192, for every input.  A value that does not fit is cut to the first
    [size - 1] bytes, and the launcher neither reports this nor stops: it
    still reaches [execvp], and the image is replaced when that call
    succeeds. *)
Theorem bounded_buffers v P argv env real :
  let p := derived_paths v real in
  let size := buffer_size v in
  size = 4096 ∧
  cut_to size (basename real) (exe_name p) ∧
  cut_to size (exe_name p +:+ ".dll") (dll_name p) ∧
  cut_to size (dir p +:+ "/" +:+ dll_name p) (dll_path p) ∧
  cut_to size (dir p +:+ "/runtimes/osx/native/MoltenVK_icd.json")
         (icd_path p) ∧
  cut_to size (dir p) (dyld_path p) ∧
  cut_to size (dir p +:+ "/runtimes/osx/native") (native_path p) ∧
  c_size (manifest_choice v P (icd_path p)) ≤ size ∧
  (∃ value,
     getenv (library_path_step v p env) "DYLD_LIBRARY_PATH" = Some value ∧
     cut_to (size * 2) (search_path p (getenv env "DYLD_LIBRARY_PATH")) value) ∧
  (∀ e, homebrew_step v P e = e ∨
     ∃ dyld, getenv e "DYLD_LIBRARY_PATH" = Some dyld ∧
       ∃ value,
         getenv (homebrew_step v P e) "DYLD_LIBRARY_PATH" = Some value ∧
         cut_to (size * 2) (dyld +:+ ":/opt/homebrew/lib") value) ∧
  (resolved v P = Some real →
   ∃ call value,
     exec_of (launcher v P argv env) = Some call ∧
     getenv (exec_env call) "DYLD_LIBRARY_PATH" = Some value ∧
     c_size value ≤ size * 2 ∧
     (execvp P call = true → launcher v P argv env = Replaced call)).
Proof.
  cbv zeta. pose proof (buffer_size_eq v) as Hsize.
  assert (0 < buffer_size v) as Hpos by (rewrite Hsize; lia).
  assert (0 < buffer_size v * 2) as Hpos2 by lia.
  rewrite (derived_paths_eq v real). cbv zeta.
  cbn [dir exe_name dll_name dll_path icd_path dyld_path native_path].
  split; [done |].
  split; [by apply strncpy_cut_to |].
  do 5 (split; [by apply snprintf_cut_to |]).
  split_and!.
  - rewrite manifest_choice_eq.
    repeat (destruct (present v P _));
      try (by apply snprintf_size);
      rewrite Hsize; vm_compute; lia.
  - eexists. split; [by rewrite library_path_step_eq, getenv_setenv |].
    by apply snprintf_cut_to.
  - intros e. rewrite homebrew_step_eq.
    destruct (present v P _); [| by left].
    destruct (getenv e "DYLD_LIBRARY_PATH") as [dyld|] eqn:Hd; [| by left].
    destruct (strstr dyld _); [by left |].
    right. exists dyld. split; [done |]. eexists.
    split; [apply getenv_setenv |]. by apply snprintf_cut_to.
  - intros Hres. exists (request v P real argv env).
    assert (∃ value,
      getenv (configured v P real env) "DYLD_LIBRARY_PATH" = Some value ∧
      c_size value ≤ buffer_size v * 2) as (value & Hv & Hb).
    { rewrite configured_library_path, homebrew_step_eq.
      assert (getenv (library_path_step v (derived_paths v real) env)
                     "DYLD_LIBRARY_PATH" =
              Some (snprintf (buffer_size v * 2)
                      (search_path (derived_paths v real)
                         (getenv env "DYLD_LIBRARY_PATH")))) as Hstep
        by (by rewrite library_path_step_eq, getenv_setenv).
      destruct (present v P _);
        [| eexists; split; [exact Hstep | by apply snprintf_size]].
      rewrite Hstep. destruct (strstr _ _);
        [eexists; split; [exact Hstep | by apply snprintf_size] |].
      eexists. split; [apply getenv_setenv | by apply snprintf_size]. }
    exists value. split_and!; [by apply exec_of_launcher | done | done |].
    intros Hexec. rewrite (launcher_resolved v P argv env real Hres).
    cbv zeta. by rewrite Hexec.
Qed.

Lemma bounded_buffers_witness :
  let env : Env := {["DYLD_LIBRARY_PATH" := long_value]} in
  ∃ call value,
    exec_of (launcher Engine (demo [] true) ["foo"] env) = Some call ∧
    getenv (exec_env call) "DYLD_LIBRARY_PATH" = Some value ∧
    c_size value ≤ buffer_size Engine * 2 ∧
    (execvp (demo [] true) call = true →
     launcher Engine (demo [] true) ["foo"] env = Replaced call).
Proof.
  cbv zeta.
  destruct (bounded_buffers Engine (demo [] true) ["foo"]
              {["DYLD_LIBRARY_PATH" := long_value]} "/Apps/Foo/Foo")
    as (_ & _ & _ & _ & _ & _ & _ & _ & _ & _ & H).
  apply H. reflexivity.
Defined.


(** ** Further properties of the launchers *)

Section further_facts.

Context (v : variant) (P : Platform).

Implicit Types (env : Env) (p : paths) (real s t : string) (n : nat).

Lemma nonempty_length s : 0 < String.length s → s ≠ EmptyString.
Proof. intros H ->. simpl in H. lia. Qed.

Lemma dirname_length_pos s : 0 < String.length (dirname s).
Proof.
  destruct s as [|c s]; [simpl; lia |].
  unfold dirname. set (r := strip_slashes _).
  destruct (before_last_component r) as [|a d]; [destruct r; simpl; lia |].
  destruct (strip_slashes (a :: d)) as [|b d']; [simpl; lia |].
  rewrite length_string_of_list, length_rev. simpl. lia.
Qed.

Lemma prefix_refl s : String.prefix s s = true.
Proof.
  induction s as [|c s IH]; [done |]. simpl. by destruct (ascii_dec c c).
Qed.

Lemma prefix_take_app n s t :
  String.length s ≤ n → String.prefix s (str_take n (s +:+ t)) = true.
Proof.
  revert n; induction s as [|c s IH]; intros n Hn;
    [by destruct (str_take _ _) |].
  destruct n as [|n]; [simpl in Hn; lia |].
  rewrite app_cons_str. simpl. destruct (ascii_dec c c); [|done].
  apply IH. simpl in Hn. lia.
Qed.

Lemma search_path_head p (prior : option string) :
  ∃ t, search_path p prior = dyld_path p +:+ ":" +:+ t.
Proof.
  unfold search_path. destruct prior as [V|]; [destruct (0 <? _) |]; eauto.
Qed.

Lemma search_path_length_pos p (prior : option string) :
  0 < String.length (search_path p prior).
Proof.
  destruct (search_path_head p prior) as [t ->].
  rewrite !length_app. change (String.length ":") with 1. lia.
Qed.

Lemma dyld_path_length_pos real :
  0 < String.length (dyld_path (derived_paths v real)).
Proof.
  rewrite derived_paths_eq. cbv zeta. cbn [dyld_path].
  rewrite snprintf_length, buffer_size_eq.
  pose proof (dirname_length_pos real). lia.
Qed.

Lemma icd_path_length_pos real :
  0 < String.length (icd_path (derived_paths v real)).
Proof.
  rewrite derived_paths_eq. cbv zeta. cbn [icd_path].
  rewrite snprintf_length, buffer_size_eq, length_app.
  pose proof (dirname_length_pos real). lia.
Qed.

Lemma library_path_step_value p env :
  getenv (library_path_step v p env) "DYLD_LIBRARY_PATH" =
  Some (snprintf (buffer_size v * 2)
          (search_path p (getenv env "DYLD_LIBRARY_PATH"))).
Proof. by rewrite library_path_step_eq, getenv_setenv. Qed.

Lemma library_path_step_length p env :
  ∃ value,
    getenv (library_path_step v p env) "DYLD_LIBRARY_PATH" = Some value ∧
    String.length value ≤ buffer_size v * 2 - 1 ∧
    (0 < String.length (dyld_path p) → 0 < String.length value).
Proof.
  eexists. split; [apply library_path_step_value |].
  rewrite snprintf_length. split; [lia |]. intros Hp.
  pose proof (search_path_length_pos p (getenv env "DYLD_LIBRARY_PATH")).
  rewrite buffer_size_eq. lia.
Qed.

Lemma launcher_unresolved_any argv argv' env env' :
  resolved v P = None →
  launcher v P argv env = launcher v P argv' env'.
Proof.
  unfold resolved, launcher, buffer_size.
  destruct v; unfold RedHoleEngine.main, RedHoleGame.main;
    destruct (_NSGetExecutablePath P _) as [rc exe];
    (destruct (rc =? 0)%Z; cbn [negb]; [intros -> |]); reflexivity.
Qed.

End further_facts.

(** X1.  Whatever [argv] is, the array handed to [execvp] has
    [argc + 3] cells, starts with "dotnet" and reaches its NULL before any
    uninitialised cell.  With an invocation name the strings are "dotnet",
    the module path and the other arguments; started with no argument at
    all ([argc = 0]) the terminator is written over the module path and
    dotnet is started with no module. *)
Theorem argv_always_terminated v (dll : string) (argv : list string) :
  ∃ strs rest,
    argument_vector v dll argv = (Ptr <$> strs) ++ Null :: rest ∧
    length (argument_vector v dll argv) = length argv + 3 ∧
    strs = match argv with
           | [] => ["dotnet"]
           | _ :: args => "dotnet" :: dll :: args
           end.
Proof.
  destruct argv as [|a0 args].
  - exists ["dotnet"], [Uninit]. by destruct v.
  - exists ("dotnet" :: dll :: args), [Uninit].
    rewrite build_argv_shape. split_and!; [done | | done].
    simpl. rewrite List.length_app, length_fmap. simpl. lia.
Qed.

(** X2.  The launcher's own invocation name is never used: two runs that
    differ only in [argv[0]] end in the same outcome, with the same
    [execvp] call. *)
Theorem invocation_name_ignored v P (a0 b0 : string) args env :
  launcher v P (a0 :: args) env = launcher v P (b0 :: args) env.
Proof.
  destruct (resolved v P) as [real|] eqn:Hres.
  - rewrite !(launcher_resolved v P _ env real Hres).
    unfold request. by rewrite !build_argv_shape.
  - by apply launcher_unresolved_any.
Qed.

(** X3.  The Homebrew block looks for the text /opt/homebrew/lib anywhere
    in the search path, not for a whole entry: a value that contains it
    (as in /opt/homebrew/library, or in the application's own directory)
    is left as it is, whether or not the Homebrew library exists. *)
Theorem homebrew_text_match v P env (before after : string) :
  getenv env "DYLD_LIBRARY_PATH" =
    Some (before +:+ "/opt/homebrew/lib" +:+ after) →
  homebrew_step v P env = env.
Proof.
  intros H. apply (homebrew_step_mentioned v P env _ H), strstr_app_r.
Qed.

Lemma homebrew_text_match_witness :
  let env : Env :=
    {["DYLD_LIBRARY_PATH" := "/Apps/Foo:/opt/homebrew/library"]} in
  homebrew_step Engine (demo ["/opt/homebrew/lib/libvulkan.dylib"] true) env
  = env.
Proof.
  cbv zeta.
  apply (homebrew_text_match Engine _ _ "/Apps/Foo:" "rary").
  vm_compute. reflexivity.
Defined.

(** X4.  When the Homebrew library exists, the value composed by the
    search-path block does not contain /opt/homebrew/lib and the extended
    value is shorter than 8192 bytes, the replacement image inherits the
    application's two directories, then the prior value (if non-empty),
    then /opt/homebrew/lib.  [real] is a path as [realpath] returns it,
    shorter than [PATH_MAX]. *)
Theorem homebrew_last_at_launch v P argv env real :
  resolved v P = Some real →
  String.length real < PATH_MAX →
  present v P "/opt/homebrew/lib/libvulkan.dylib" = true →
  let D := dirname real in
  let composed :=
    match getenv env "DYLD_LIBRARY_PATH" with
    | Some V =>
      if 0 <? String.length V
      then D +:+ ":" +:+ (D +:+ "/runtimes/osx/native") +:+ ":" +:+ V
      else D +:+ ":" +:+ (D +:+ "/runtimes/osx/native")
    | None => D +:+ ":" +:+ (D +:+ "/runtimes/osx/native")
    end in
  strstr composed "/opt/homebrew/lib" = None →
  fits (buffer_size v * 2) (composed +:+ ":/opt/homebrew/lib") →
  inherited (launcher v P argv env) "DYLD_LIBRARY_PATH" =
    Some (composed +:+ ":/opt/homebrew/lib").
Proof.
  intros Hres Hlen Hp. cbv zeta. intros Hs Hfit.
  rewrite (inherited_launcher v P argv env real _ Hres).
  rewrite configured_library_path, homebrew_step_eq, Hp.
  pose proof (library_path_value v real env Hlen) as Hval. cbv zeta in Hval.
  rewrite Hval.
  assert (fits (buffer_size v * 2)
            match getenv env "DYLD_LIBRARY_PATH" with
            | Some V =>
              if 0 <? String.length V
              then dirname real +:+ ":" +:+
                     (dirname real +:+ "/runtimes/osx/native") +:+ ":" +:+ V
              else dirname real +:+ ":" +:+
                     (dirname real +:+ "/runtimes/osx/native")
            | None => dirname real +:+ ":" +:+
                        (dirname real +:+ "/runtimes/osx/native")
            end) as Hfit0.
  { unfold fits in *. rewrite length_app in Hfit. lia. }
  rewrite (snprintf_fits _ _ Hfit0), Hs, getenv_setenv.
  by rewrite (snprintf_fits _ _ Hfit).
Qed.

Lemma homebrew_last_at_launch_witness :
  inherited
    (launcher Game (demo ["/opt/homebrew/lib/libvulkan.dylib"] true)
       ["foo"] {["DYLD_LIBRARY_PATH" := "/opt/lib"]})
    "DYLD_LIBRARY_PATH" =
  Some (("/Apps/Foo" +:+ ":" +:+ ("/Apps/Foo" +:+ "/runtimes/osx/native")
           +:+ ":" +:+ "/opt/lib") +:+ ":/opt/homebrew/lib").
Proof.
  assert (String.length "/Apps/Foo/Foo" < PATH_MAX) as Hlen
    by (vm_compute; lia).
  refine (homebrew_last_at_launch Game
            (demo ["/opt/homebrew/lib/libvulkan.dylib"] true) ["foo"]
            {["DYLD_LIBRARY_PATH" := "/opt/lib"]} "/Apps/Foo/Foo"
            eq_refl Hlen eq_refl _ _).
  - vm_compute. reflexivity.
  - unfold fits. vm_compute. lia.
Defined.

(** X5.  Whenever the launcher reaches [execvp], DYLD_LIBRARY_PATH,
    VK_ICD_FILENAMES and VK_DRIVER_FILES are all set in the environment it
    hands over, each to a non-empty value, whatever the prior environment
    and the file system were. *)
Theorem variables_set_and_nonempty v P argv env real name :
  resolved v P = Some real →
  name ∈ ["DYLD_LIBRARY_PATH"; "VK_ICD_FILENAMES"; "VK_DRIVER_FILES"] →
  ∃ value,
    inherited (launcher v P argv env) name = Some value ∧
    value ≠ EmptyString.
Proof.
  intros Hres Hname.
  rewrite (inherited_launcher v P argv env real _ Hres).
  assert (manifest_choice v P (icd_path (derived_paths v real)) ≠ EmptyString)
    as Hicd.
  { rewrite manifest_choice_eq.
    pose proof (nonempty_length _ (icd_path_length_pos v real)).
    by repeat destruct (present v P _). }
  destruct (configured_manifest v P real env) as [Hi Hd].
  apply elem_of_cons in Hname as [-> | Hname];
    [| apply elem_of_cons in Hname as [-> | Hname];
       [by eauto | apply list_elem_of_singleton in Hname as ->; by eauto]].
  rewrite configured_library_path, homebrew_step_eq.
  destruct (library_path_step_length v (derived_paths v real) env)
    as (set & Hset & _ & Hpos).
  specialize (Hpos (dyld_path_length_pos v real)).
  destruct (present v P _);
    [| exists set; split; [done | by apply nonempty_length]].
  rewrite Hset. destruct (strstr set _);
    [exists set; split; [done | by apply nonempty_length] |].
  eexists. split; [apply getenv_setenv |].
  apply nonempty_length. rewrite snprintf_length, length_app, buffer_size_eq.
  lia.
Qed.

Lemma variables_set_and_nonempty_witness :
  ∃ value,
    inherited (launcher Engine (demo [] true) ["foo"] ∅) "VK_DRIVER_FILES"
      = Some value ∧
    value ≠ EmptyString.
Proof.
  apply (variables_set_and_nonempty Engine (demo [] true) ["foo"] ∅
           "/Apps/Foo/Foo"); [reflexivity |].
  apply list_elem_of_In. simpl. tauto.
Defined.

(** X6.  The Homebrew block only ever extends what the search-path block
    set: the value the replacement image inherits begins with the value
    of the search-path block, and differs from it only if the Homebrew
    library exists and that value does not contain /opt/homebrew/lib. *)
Theorem homebrew_only_extends v P argv env real :
  resolved v P = Some real →
  ∃ set final,
    getenv (library_path_step v (derived_paths v real) env)
           "DYLD_LIBRARY_PATH" = Some set ∧
    inherited (launcher v P argv env) "DYLD_LIBRARY_PATH" = Some final ∧
    String.prefix set final = true ∧
    (final = set ∨
     present v P "/opt/homebrew/lib/libvulkan.dylib" = true ∧
     strstr set "/opt/homebrew/lib" = None).
Proof.
  intros Hres.
  rewrite (inherited_launcher v P argv env real _ Hres).
  rewrite configured_library_path, homebrew_step_eq.
  destruct (library_path_step_length v (derived_paths v real) env)
    as (set & Hset & Hlen & _).
  exists set.
  destruct (present v P _);
    [| exists set; split_and!; [done | done | apply prefix_refl | by left]].
  rewrite Hset. destruct (strstr set _) eqn:Hs;
    [exists set; split_and!; [done | done | apply prefix_refl | by left] |].
  eexists. split_and!; [done | apply getenv_setenv | | by right].
  by apply prefix_take_app.
Qed.

Lemma homebrew_only_extends_witness :
  ∃ set final,
    getenv (library_path_step Engine (derived_paths Engine "/Apps/Foo/Foo") ∅)
           "DYLD_LIBRARY_PATH" = Some set ∧
    inherited
      (launcher Engine (demo ["/opt/homebrew/lib/libvulkan.dylib"] true)
         ["foo"] ∅) "DYLD_LIBRARY_PATH" = Some final ∧
    String.prefix set final = true ∧
    (final = set ∨
     present Engine (demo ["/opt/homebrew/lib/libvulkan.dylib"] true)
       "/opt/homebrew/lib/libvulkan.dylib" = true ∧
     strstr set "/opt/homebrew/lib" = None).
Proof.
  apply (homebrew_only_extends Engine
           (demo ["/opt/homebrew/lib/libvulkan.dylib"] true) ["foo"] ∅
           "/Apps/Foo/Foo").
  reflexivity.
Defined.

(** X7.  The manifest path the launcher selects names an existing file
    exactly when one of the three candidates (the given path, the Homebrew
    manifest, the /usr/local manifest) exists, and selecting again from
    the selected path gives the same path. *)
Theorem manifest_choice_exists v P (path : string) :
  present v P (manifest_choice v P path) =
    (present v P path
     || present v P "/opt/homebrew/share/vulkan/icd.d/MoltenVK_icd.json"
     || present v P "/usr/local/share/vulkan/icd.d/MoltenVK_icd.json") ∧
  manifest_choice v P (manifest_choice v P path) = manifest_choice v P path.
Proof.
  rewrite (manifest_choice_eq v P path).
  destruct (present v P path) eqn:H1.
  { split; [by rewrite H1 | by rewrite manifest_choice_eq, H1]. }
  destruct (present v P "/opt/homebrew/share/vulkan/icd.d/MoltenVK_icd.json")
    eqn:H2.
  { split; [by rewrite H2 | by rewrite manifest_choice_eq, H2]. }
  destruct (present v P "/usr/local/share/vulkan/icd.d/MoltenVK_icd.json")
    eqn:H3.
  { split; [by rewrite H3 | by rewrite manifest_choice_eq, H3]. }
  split; [by rewrite H1 | by rewrite manifest_choice_eq, H1, H2, H3].
Qed.

(** X8.  For an executable that sits directly in the root directory,
    [dirname] answers "/" and every derived path starts with two slashes:
    the module path is //N.dll and the native directory
    //runtimes/osx/native. *)
Theorem root_directory_paths v (N : string) :
  file_name N →
  String.length N + 1 < PATH_MAX →
  let p := derived_paths v ("/" +:+ N) in
  dyld_path p = "/" ∧
  dll_path p = "//" +:+ N +:+ ".dll" ∧
  native_path p = "//runtimes/osx/native" ∧
  icd_path p = "//runtimes/osx/native/MoltenVK_icd.json".
Proof.
  intros HN Hlen. cbv zeta.
  assert (directory_path "/") as HD by (by left).
  pose proof (dirname_entry "/" N HD HN) as Hdir.
  pose proof (basename_entry "/" N HD HN) as Hbase.
  change (entry_path "/" N) with ("/" +:+ N) in Hdir, Hbase.
  rewrite derived_paths_resolved
    by (rewrite length_app; change (String.length "/") with 1; lia).
  cbn [dyld_path dll_path native_path icd_path].
  by rewrite Hdir, Hbase.
Qed.

Lemma root_directory_paths_witness :
  let p := derived_paths Engine ("/" +:+ "Foo") in
  dyld_path p = "/" ∧
  dll_path p = "//" +:+ "Foo" +:+ ".dll" ∧
  native_path p = "//runtimes/osx/native" ∧
  icd_path p = "//runtimes/osx/native/MoltenVK_icd.json".
Proof.
  apply (root_directory_paths Engine "Foo").
  - split; [done |]. repeat constructor.
  - vm_compute. lia.
Defined.

(** X9.  The search-path block does not deduplicate: applied to an
    environment it has already set, it puts the two directories in front
    once more, as long as the longer value is shorter than 8192 bytes. *)
Theorem library_path_not_deduplicated v p env :
  let first := search_path p (getenv env "DYLD_LIBRARY_PATH") in
  fits (buffer_size v * 2)
    (dyld_path p +:+ ":" +:+ native_path p +:+ ":" +:+ first) →
  getenv (library_path_step v p (library_path_step v p env))
         "DYLD_LIBRARY_PATH" =
    Some (dyld_path p +:+ ":" +:+ native_path p +:+ ":" +:+ first).
Proof.
  cbv zeta. intros Hfit.
  rewrite library_path_step_value, library_path_step_value.
  assert (fits (buffer_size v * 2)
            (search_path p (getenv env "DYLD_LIBRARY_PATH"))) as Hfit0.
  { unfold fits in *. rewrite !length_app in Hfit. lia. }
  rewrite (snprintf_fits _ _ Hfit0).
  unfold search_path at 1.
  pose proof (search_path_length_pos p (getenv env "DYLD_LIBRARY_PATH"))
    as Hpos.
  apply Nat.ltb_lt in Hpos. rewrite Hpos.
  by rewrite (snprintf_fits _ _ Hfit).
Qed.

Lemma library_path_not_deduplicated_witness :
  let p := derived_paths Engine "/Apps/Foo/Foo" in
  getenv (library_path_step Engine p (library_path_step Engine p ∅))
         "DYLD_LIBRARY_PATH" =
    Some (dyld_path p +:+ ":" +:+ native_path p +:+ ":" +:+
            search_path p (getenv (∅ : Env) "DYLD_LIBRARY_PATH")).
Proof.
  cbv zeta.
  apply (library_path_not_deduplicated Engine
           (derived_paths Engine "/Apps/Foo/Foo") ∅).
  unfold fits. vm_compute. lia.
Defined.
